(** * QLC+ virtual console: the RGB matrix properties editor

    A shallow embedding of [ui/src/virtualconsole/vcmatrixproperties.cpp].

    The editor is a modal dialog working on a private copy of a matrix
    widget's configuration.  Every slot of the C++ class becomes a function
    on the editor state; a modal child dialog (colour picker, text entry,
    function selection, input channel selection, hot key assignment) is
    represented by the result it hands back, which the slot receives as an
    argument.  Widgets that only display text (universe, channel and key
    line edits) hold nothing the editor reads back and are left out.

    In the editor state bindings and controls are values: an input binding
    is an optional (universe, channel) pair and a control is a record.  The
    slider binding is the one object the editor shares with the matrix, by
    pointer; its objects, with their [new] and [delete], are followed in a
    store of their own, side by side with the editor state. *)

From Stdlib Require Import ZArith String Ascii DecimalString Lia.
From stdpp Require Import base option list sorting gmap.

Local Open Scope Z_scope.

(** ** Fixed-width integers *)

(** Control ids are [quint8] wherever the file writes their type
    ([removeControl(quint8 id)], [quint8 ctlID] in [getSelectedControl] and
    [slotRemoveClicked]).  Input universes and channels are [quint32]. *)
Definition quint8 (x : Z) : Z := x mod 256.
Definition quint32 (x : Z) : Z := x mod 4294967296.

(** ** Toolkit values *)

Module QString.

(** [QChar::isSpace] on the ASCII range: tab, line feed, vertical tab, form
    feed, carriage return and space. *)
Definition isSpace (c : ascii) : bool :=
  let n := N_of_ascii c in
  ((9 <=? n)%N && (n <=? 13)%N) || (n =? 32)%N.

(** [QString::simplified]: white space removed from both ends, every inner
    run of white space replaced by one space.  [started] tells that a
    character has been emitted, [pending] that a run of white space has been
    seen since. *)
Fixpoint simplified_from (started pending : bool) (s : string) : string :=
  match s with
  | EmptyString => EmptyString
  | String c s' =>
      if isSpace c then simplified_from started started s'
      else if pending
           then String " "%char (String c (simplified_from true false s'))
           else String c (simplified_from true false s')
  end.

Definition simplified (s : string) : string := simplified_from false false s.

(** [QString::contains] (case sensitive): [sub] occurs somewhere in [s]. *)
Fixpoint contains (s sub : string) : bool :=
  String.prefix sub s
  || match s with
     | EmptyString => false
     | String _ s' => contains s' sub
     end.

Definition isEmpty (s : string) : bool :=
  match s with EmptyString => true | _ => false end.

(** [QString::number] of an unsigned value, base 10. *)
Definition number (n : Z) : string :=
  NilZero.string_of_uint (N.to_uint (Z.to_N n)).

End QString.

(** A colour of the toolkit: whether it is valid, and its value.  The colour
    dialog hands back an invalid colour when it is cancelled. *)
Record QColor := mkQColor { isValid : bool; rgb : Z }.

(** Modelled from the spec: an input source, declared in the engine, is a
    (universe id, channel id) pair; the file builds one with
    [QLCInputSource(universe, channel)]. *)
Record QLCInputSource := mkQLCInputSource { universe : Z; channel : Z }.

(** A key sequence is the list of its key codes; [QKeySequence()] is empty. *)
Definition QKeySequence := list Z.

Inductive DialogCode := Rejected | Accepted.

(** ** Custom controls *)

(** The five kinds [updateTree] switches over. *)
Inductive ControlType := StartColor | EndColor | Animation | Image | Text.

(** The members of a control the file reads and writes. *)
Record VCMatrixControl := mkControl {
  m_id : Z;
  m_type : ControlType;
  m_color : QColor;
  m_resource : string;
  m_inputSource : option QLCInputSource;
  m_keySequence : QKeySequence
}.

(** Modelled from the spec: the constructor taking an id is defined outside
    the file; a fresh control carries the given id, no input binding and no
    key binding.  Its id, "a small integer", is stored as the [quint8] the
    file passes ids as.  The type is set by every caller right after
    construction. *)
Definition new_VCMatrixControl (id : Z) : VCMatrixControl :=
  {| m_id := quint8 id; m_type := StartColor;
     m_color := mkQColor false 0; m_resource := EmptyString;
     m_inputSource := None; m_keySequence := [] |}.

(** Modelled from the spec: the constructor taking a pointer to an existing
    control, used to fill the working list when the editor opens, makes a
    deep copy. *)
Definition copy_VCMatrixControl (c : VCMatrixControl) : VCMatrixControl := c.

Definition set_type (t : ControlType) (c : VCMatrixControl) :=
  mkControl (m_id c) t (m_color c) (m_resource c) (m_inputSource c) (m_keySequence c).
Definition set_color (col : QColor) (c : VCMatrixControl) :=
  mkControl (m_id c) (m_type c) col (m_resource c) (m_inputSource c) (m_keySequence c).
Definition set_resource (r : string) (c : VCMatrixControl) :=
  mkControl (m_id c) (m_type c) (m_color c) r (m_inputSource c) (m_keySequence c).
Definition set_inputSource (src : option QLCInputSource) (c : VCMatrixControl) :=
  mkControl (m_id c) (m_type c) (m_color c) (m_resource c) src (m_keySequence c).
Definition set_keySequence (k : QKeySequence) (c : VCMatrixControl) :=
  mkControl (m_id c) (m_type c) (m_color c) (m_resource c) (m_inputSource c) k.

(** [compareControlsID]: the "less than" handed to [qSort]. *)
Definition compareControlsID (ctl1 ctl2 : VCMatrixControl) : bool :=
  if m_id ctl1 <? m_id ctl2 then true else false.

(** [qSort] is the toolkit's; it is modelled by an insertion sort driven by
    the same comparator.  Qt leaves the order of elements that compare equal
    open; this sort keeps them in their order, and nothing below depends on
    it. *)
Fixpoint qSort_insert (lessThan : VCMatrixControl -> VCMatrixControl -> bool)
    (c : VCMatrixControl) (l : list VCMatrixControl) : list VCMatrixControl :=
  match l with
  | [] => [c]
  | x :: l' => if lessThan x c then x :: qSort_insert lessThan c l'
               else c :: x :: l'
  end.

Definition qSort (lessThan : VCMatrixControl -> VCMatrixControl -> bool)
    (l : list VCMatrixControl) : list VCMatrixControl :=
  fold_right (qSort_insert lessThan) [] l.

(** ** The matrix widget and the document *)

(** Modelled from the spec: the matrix is the object the dialog edits; its
    class is declared outside the file.  The record has one field per
    accessor the file calls: [caption()], [function()], [instantChanges()],
    [inputSource()], [customControls()], [page()] and [id()].  The controls
    the editor reads when it opens are its own copies.  [inputSource()]
    returns a pointer: the field holds the binding that pointer leads to when
    the matrix is read, and the object behind it is kept apart, in the part on
    the objects behind the slider binding below. *)
Record VCMatrix := mkMatrix {
  caption : string;
  function : Z;
  instantChanges : bool;
  inputSource : option QLCInputSource;
  customControls : list VCMatrixControl;
  page : Z;
  id : Z
}.

Module Matrix.

(** Modelled from the spec: the matrix setters are defined in vcmatrix.cpp
    and vcwidget.cpp; each one writes the field its getter reads. *)
Definition setCaption (s : string) (m : VCMatrix) :=
  mkMatrix s (function m) (instantChanges m) (inputSource m) (customControls m) (page m) (id m).
Definition setFunction (f : Z) (m : VCMatrix) :=
  mkMatrix (caption m) f (instantChanges m) (inputSource m) (customControls m) (page m) (id m).
Definition setInstantChanges (b : bool) (m : VCMatrix) :=
  mkMatrix (caption m) (function m) b (inputSource m) (customControls m) (page m) (id m).
Definition setInputSource (src : option QLCInputSource) (m : VCMatrix) :=
  mkMatrix (caption m) (function m) (instantChanges m) src (customControls m) (page m) (id m).

(** Modelled from the spec: [resetCustomControls] empties the matrix's
    control collection and [addCustomControl] appends one control to it. *)
Definition resetCustomControls (m : VCMatrix) :=
  mkMatrix (caption m) (function m) (instantChanges m) (inputSource m) [] (page m) (id m).
Definition addCustomControl (c : VCMatrixControl) (m : VCMatrix) :=
  mkMatrix (caption m) (function m) (instantChanges m) (inputSource m)
           (customControls m ++ [c]) (page m) (id m).

End Matrix.

Record Function := mkFunction { name : string }.

(** Modelled from the spec: the document resolves a function id to the
    function, or to nothing ([NULL]) when the id is unknown. *)
Record Doc := mkDoc { functions : gmap Z Function }.

Definition Doc_function (doc : Doc) (fid : Z) : option Function :=
  functions doc !! fid.

(** Modelled from the spec: the "no function" id that [slotSetFunction()]
    takes when the detach button calls it without an argument.  The default
    argument is declared in the header; any id the document does not know
    behaves the same. *)
Definition Function_invalidId : Z := 4294967295.

(** ** The editor *)

(** The dialog's members, the widgets it reads back, and the matrix object
    [m_matrix] points to.  The tree widget is the list of the [Qt::UserRole]
    data of its rows (a control id each) with the selected row, if any.  A
    signal connection made by [connect] is counted: Qt calls a slot once per
    connection, and [disconnect] drops every connection of the pair. *)
Record VCMatrixProperties := mkEditor {
  m_matrix : VCMatrix;
  m_doc : Doc;
  m_nameEdit : string;
  m_functionEdit : string;
  m_function : Z;
  m_instantCheck : bool;
  m_sliderInputSource : option QLCInputSource;
  m_controls : list VCMatrixControl;
  m_lastAssignedID : Z;
  m_controlsTree : list Z;
  selectedRow : option nat;
  m_autoDetectInputButton : bool;
  m_adControlInputButton : bool;
  sliderInputConnections : nat;
  controlInputConnections : nat;
  result : option DialogCode
}.

Section Setters.
Variable st : VCMatrixProperties.

Definition with_matrix (m : VCMatrix) :=
  mkEditor m (m_doc st) (m_nameEdit st) (m_functionEdit st) (m_function st)
    (m_instantCheck st) (m_sliderInputSource st) (m_controls st)
    (m_lastAssignedID st) (m_controlsTree st) (selectedRow st)
    (m_autoDetectInputButton st) (m_adControlInputButton st)
    (sliderInputConnections st) (controlInputConnections st) (result st).
Definition with_nameEdit (s : string) :=
  mkEditor (m_matrix st) (m_doc st) s (m_functionEdit st) (m_function st)
    (m_instantCheck st) (m_sliderInputSource st) (m_controls st)
    (m_lastAssignedID st) (m_controlsTree st) (selectedRow st)
    (m_autoDetectInputButton st) (m_adControlInputButton st)
    (sliderInputConnections st) (controlInputConnections st) (result st).
Definition with_functionEdit (s : string) :=
  mkEditor (m_matrix st) (m_doc st) (m_nameEdit st) s (m_function st)
    (m_instantCheck st) (m_sliderInputSource st) (m_controls st)
    (m_lastAssignedID st) (m_controlsTree st) (selectedRow st)
    (m_autoDetectInputButton st) (m_adControlInputButton st)
    (sliderInputConnections st) (controlInputConnections st) (result st).
Definition with_function (f : Z) :=
  mkEditor (m_matrix st) (m_doc st) (m_nameEdit st) (m_functionEdit st) f
    (m_instantCheck st) (m_sliderInputSource st) (m_controls st)
    (m_lastAssignedID st) (m_controlsTree st) (selectedRow st)
    (m_autoDetectInputButton st) (m_adControlInputButton st)
    (sliderInputConnections st) (controlInputConnections st) (result st).
Definition with_instantCheck (b : bool) :=
  mkEditor (m_matrix st) (m_doc st) (m_nameEdit st) (m_functionEdit st)
    (m_function st) b (m_sliderInputSource st) (m_controls st)
    (m_lastAssignedID st) (m_controlsTree st) (selectedRow st)
    (m_autoDetectInputButton st) (m_adControlInputButton st)
    (sliderInputConnections st) (controlInputConnections st) (result st).
Definition with_sliderInputSource (src : option QLCInputSource) :=
  mkEditor (m_matrix st) (m_doc st) (m_nameEdit st) (m_functionEdit st)
    (m_function st) (m_instantCheck st) src (m_controls st)
    (m_lastAssignedID st) (m_controlsTree st) (selectedRow st)
    (m_autoDetectInputButton st) (m_adControlInputButton st)
    (sliderInputConnections st) (controlInputConnections st) (result st).
Definition with_controls (l : list VCMatrixControl) :=
  mkEditor (m_matrix st) (m_doc st) (m_nameEdit st) (m_functionEdit st)
    (m_function st) (m_instantCheck st) (m_sliderInputSource st) l
    (m_lastAssignedID st) (m_controlsTree st) (selectedRow st)
    (m_autoDetectInputButton st) (m_adControlInputButton st)
    (sliderInputConnections st) (controlInputConnections st) (result st).
Definition with_lastAssignedID (n : Z) :=
  mkEditor (m_matrix st) (m_doc st) (m_nameEdit st) (m_functionEdit st)
    (m_function st) (m_instantCheck st) (m_sliderInputSource st)
    (m_controls st) n (m_controlsTree st) (selectedRow st)
    (m_autoDetectInputButton st) (m_adControlInputButton st)
    (sliderInputConnections st) (controlInputConnections st) (result st).
Definition with_tree (rows : list Z) (sel : option nat) :=
  mkEditor (m_matrix st) (m_doc st) (m_nameEdit st) (m_functionEdit st)
    (m_function st) (m_instantCheck st) (m_sliderInputSource st)
    (m_controls st) (m_lastAssignedID st) rows sel
    (m_autoDetectInputButton st) (m_adControlInputButton st)
    (sliderInputConnections st) (controlInputConnections st) (result st).
Definition with_autoDetectInputButton (b : bool) :=
  mkEditor (m_matrix st) (m_doc st) (m_nameEdit st) (m_functionEdit st)
    (m_function st) (m_instantCheck st) (m_sliderInputSource st)
    (m_controls st) (m_lastAssignedID st) (m_controlsTree st)
    (selectedRow st) b (m_adControlInputButton st)
    (sliderInputConnections st) (controlInputConnections st) (result st).
Definition with_adControlInputButton (b : bool) :=
  mkEditor (m_matrix st) (m_doc st) (m_nameEdit st) (m_functionEdit st)
    (m_function st) (m_instantCheck st) (m_sliderInputSource st)
    (m_controls st) (m_lastAssignedID st) (m_controlsTree st)
    (selectedRow st) (m_autoDetectInputButton st) b
    (sliderInputConnections st) (controlInputConnections st) (result st).
Definition with_sliderInputConnections (n : nat) :=
  mkEditor (m_matrix st) (m_doc st) (m_nameEdit st) (m_functionEdit st)
    (m_function st) (m_instantCheck st) (m_sliderInputSource st)
    (m_controls st) (m_lastAssignedID st) (m_controlsTree st)
    (selectedRow st) (m_autoDetectInputButton st)
    (m_adControlInputButton st) n (controlInputConnections st) (result st).
Definition with_controlInputConnections (n : nat) :=
  mkEditor (m_matrix st) (m_doc st) (m_nameEdit st) (m_functionEdit st)
    (m_function st) (m_instantCheck st) (m_sliderInputSource st)
    (m_controls st) (m_lastAssignedID st) (m_controlsTree st)
    (selectedRow st) (m_autoDetectInputButton st)
    (m_adControlInputButton st) (sliderInputConnections st) n (result st).
Definition with_result (r : option DialogCode) :=
  mkEditor (m_matrix st) (m_doc st) (m_nameEdit st) (m_functionEdit st)
    (m_function st) (m_instantCheck st) (m_sliderInputSource st)
    (m_controls st) (m_lastAssignedID st) (m_controlsTree st)
    (selectedRow st) (m_autoDetectInputButton st)
    (m_adControlInputButton st) (sliderInputConnections st)
    (controlInputConnections st) r.
End Setters.

(** Results of the modal child dialogs. *)
Record FunctionSelection := mkFS { fs_exec : DialogCode; fs_selection : list Z }.
Record SelectInputChannel :=
  mkSIC { sic_exec : DialogCode; sic_universe : Z; sic_channel : Z }.
Record AssignHotKey := mkAHK { ahk_exec : DialogCode; ahk_keySequence : QKeySequence }.

(** *** RGB matrix attachment *)

(** The function is looked up in the document; when it is there, its name is
    shown and also replaces a display name that contains the matrix id. *)
Definition slotSetFunction (fid : Z) (st : VCMatrixProperties) : VCMatrixProperties :=
  let st := with_function st fid in
  match Doc_function (m_doc st) (m_function st) with
  | None => with_functionEdit st "No function"
  | Some func =>
      let st := with_functionEdit st (name func) in
      if QString.contains (QString.simplified (m_nameEdit st))
                          (QString.number (id (m_matrix st)))
      then with_nameEdit st (name func)
      else st
  end.

Definition slotAttachFunction (fs : FunctionSelection) (st : VCMatrixProperties)
    : VCMatrixProperties :=
  match fs_exec fs, fs_selection fs with
  | Accepted, first :: _ => slotSetFunction first st
  | _, _ => st
  end.

(** *** Slider external input *)

(** [connect] when checked, [disconnect] otherwise. *)
Definition slotAutoDetectSliderInputToggled (checked : bool) (st : VCMatrixProperties)
    : VCMatrixProperties :=
  if checked
  then with_sliderInputConnections st (S (sliderInputConnections st))
  else with_sliderInputConnections st O.

(** The binding is replaced by [(universe, (page << 16) | channel)]; the
    channel of an input source is a [quint32].  This is the value
    [m_sliderInputSource] leads to after the slot; the [delete] of the old
    object and the [new] of this one are in
    [Pointers.slotSliderInputValueChanged]. *)
Definition slotSliderInputValueChanged (universe channel : Z) (st : VCMatrixProperties)
    : VCMatrixProperties :=
  with_sliderInputSource st
    (Some (mkQLCInputSource universe
             (quint32 (Z.lor (Z.shiftl (page (m_matrix st)) 16) channel)))).

(** As above, with the universe and channel the picker returns; the [delete]
    and the [new] are in [Pointers.slotChooseSliderInputClicked]. *)
Definition slotChooseSliderInputClicked (sic : SelectInputChannel)
    (st : VCMatrixProperties) : VCMatrixProperties :=
  match sic_exec sic with
  | Accepted =>
      with_sliderInputSource st
        (Some (mkQLCInputSource (sic_universe sic) (sic_channel sic)))
  | Rejected => st
  end.

(** *** The tree of controls *)

(** [updateTree]: the tree is cleared, which also drops the selection, and
    gets one row per working control, carrying its id.  ([Image] controls get
    a row as well, with neither icon nor text.) *)
Definition updateTree (st : VCMatrixProperties) : VCMatrixProperties :=
  with_tree st (map m_id (m_controls st)) None.

(** [getSelectedControl] returns a pointer into [m_controls]; here, the
    position of the control pointed to. *)
Definition getSelectedControl (st : VCMatrixProperties) : option nat :=
  match selectedRow st with
  | None => None
  | Some row =>
      match m_controlsTree st !! row with
      | None => None
      | Some data =>
          let ctlID := quint8 data in
          fst <$> list_find (fun control => m_id control = ctlID) (m_controls st)
      end
  end.

(** A write through the pointer returned by [getSelectedControl]. *)
Definition update_control (i : nat) (f : VCMatrixControl -> VCMatrixControl)
    (st : VCMatrixProperties) : VCMatrixProperties :=
  with_controls st (alter f i (m_controls st)).

(** *** Custom controls *)

Definition addControl (control : VCMatrixControl) (st : VCMatrixProperties)
    : VCMatrixProperties :=
  with_controls st (m_controls st ++ [control]).

(** The loop of [removeControl], [n] iterations left, at index [i]. *)
Fixpoint removeControl_loop (n i : nat) (id : Z) (l : list VCMatrixControl)
    : list VCMatrixControl :=
  match n with
  | O => l
  | S n' =>
      match l !! i with
      | None => l
      | Some c => if m_id c =? id then delete i l
                  else removeControl_loop n' (S i) id l
      end
  end.

Definition removeControl (id : Z) (st : VCMatrixProperties) : VCMatrixProperties :=
  with_controls st
    (removeControl_loop (length (m_controls st)) 0 (quint8 id) (m_controls st)).

(** [++m_lastAssignedID].  The counter is declared in the header, outside the
    file; it holds a control id and is given the width of one, so the
    increment wraps from 255 to 0. *)
Definition preincrement_lastAssignedID (st : VCMatrixProperties) : VCMatrixProperties :=
  with_lastAssignedID st (quint8 (m_lastAssignedID st + 1)).

Definition slotAddStartColorClicked (col : QColor) (st : VCMatrixProperties)
    : VCMatrixProperties :=
  if isValid col then
    let st := preincrement_lastAssignedID st in
    let newControl := new_VCMatrixControl (m_lastAssignedID st) in
    let newControl := set_type StartColor newControl in
    let newControl := set_color col newControl in
    updateTree (addControl newControl st)
  else st.

Definition slotAddEndColorClicked (col : QColor) (st : VCMatrixProperties)
    : VCMatrixProperties :=
  if isValid col then
    let st := preincrement_lastAssignedID st in
    let newControl := new_VCMatrixControl (m_lastAssignedID st) in
    let newControl := set_type EndColor newControl in
    let newControl := set_color col newControl in
    updateTree (addControl newControl st)
  else st.

Definition slotAddAnimationClicked (ok : bool) (text : string)
    (st : VCMatrixProperties) : VCMatrixProperties :=
  if ok && negb (QString.isEmpty text) then
    let st := preincrement_lastAssignedID st in
    let newControl := new_VCMatrixControl (m_lastAssignedID st) in
    let newControl := set_type Animation newControl in
    let newControl := set_resource text newControl in
    updateTree (addControl newControl st)
  else st.

Definition slotAddTextClicked (ok : bool) (text : string)
    (st : VCMatrixProperties) : VCMatrixProperties :=
  if ok && negb (QString.isEmpty text) then
    let st := preincrement_lastAssignedID st in
    let newControl := new_VCMatrixControl (m_lastAssignedID st) in
    let newControl := set_type Text newControl in
    let newControl := set_resource text newControl in
    updateTree (addControl newControl st)
  else st.

Definition slotRemoveClicked (st : VCMatrixProperties) : VCMatrixProperties :=
  match selectedRow st with
  | None => st
  | Some row =>
      match m_controlsTree st !! row with
      | None => st
      | Some data =>
          let ctlID := quint8 data in
          updateTree (removeControl ctlID st)
      end
  end.

(** *** Per-control input and key *)

Definition slotAutoDetectControlInputToggled (checked : bool)
    (st : VCMatrixProperties) : VCMatrixProperties :=
  if checked
  then with_controlInputConnections st (S (controlInputConnections st))
  else with_controlInputConnections st O.

Definition slotControlInputValueChanged (universe channel : Z)
    (st : VCMatrixProperties) : VCMatrixProperties :=
  match getSelectedControl st with
  | None => st
  | Some i =>
      update_control i
        (set_inputSource
           (Some (mkQLCInputSource universe
                    (quint32 (Z.lor (Z.shiftl (page (m_matrix st)) 16) channel)))))
        st
  end.

Definition slotChooseControlInputClicked (sic : SelectInputChannel)
    (st : VCMatrixProperties) : VCMatrixProperties :=
  match sic_exec sic with
  | Accepted =>
      match getSelectedControl st with
      | None => st
      | Some i =>
          update_control i
            (set_inputSource
               (Some (mkQLCInputSource (sic_universe sic) (sic_channel sic))))
            st
      end
  | Rejected => st
  end.

(** The hot key dialog is opened only when a control is selected. *)
Definition slotAttachKey (ahk : AssignHotKey) (st : VCMatrixProperties)
    : VCMatrixProperties :=
  match getSelectedControl st with
  | None => st
  | Some i =>
      match ahk_exec ahk with
      | Accepted => update_control i (set_keySequence (ahk_keySequence ahk)) st
      | Rejected => st
      end
  end.

Definition slotDetachKey (st : VCMatrixProperties) : VCMatrixProperties :=
  match getSelectedControl st with
  | None => st
  | Some i => update_control i (set_keySequence []) st
  end.

(** *** Opening and closing *)

(** The loop of the constructor over the matrix's controls: each one is
    copied to the working list and the largest id seen is kept. *)
Definition load_control (acc : list VCMatrixControl * Z) (control : VCMatrixControl)
    : list VCMatrixControl * Z :=
  (fst acc ++ [copy_VCMatrixControl control],
   if m_id control >? snd acc then m_id control else snd acc).

(** The constructor.  The widgets start as the form declares them: empty
    fields, nothing checked, nothing connected. *)
Definition VCMatrixProperties_new (matrix : VCMatrix) (doc : Doc) : VCMatrixProperties :=
  let st :=
    {| m_matrix := matrix; m_doc := doc;
       m_nameEdit := caption matrix; m_functionEdit := EmptyString;
       m_function := 0; m_instantCheck := false;
       m_sliderInputSource := None; m_controls := [];
       m_lastAssignedID := 0;
       m_controlsTree := []; selectedRow := None;
       m_autoDetectInputButton := false; m_adControlInputButton := false;
       sliderInputConnections := O; controlInputConnections := O;
       result := None |} in
  let st := slotSetFunction (function (m_matrix st)) st in
  let st := if instantChanges (m_matrix st) then with_instantCheck st true else st in
  let st := with_sliderInputSource st (inputSource (m_matrix st)) in
  let loaded := fold_left load_control (customControls (m_matrix st))
                          (m_controls st, m_lastAssignedID st) in
  let st := with_lastAssignedID (with_controls st (fst loaded)) (snd loaded) in
  let st := with_controls st (qSort compareControlsID (m_controls st)) in
  updateTree st.

(** The destructor's body is empty; destroying the dialog then runs the
    destructor of [QObject], which drops every connection made to the
    object. *)
Definition VCMatrixProperties_delete (st : VCMatrixProperties) : VCMatrixProperties :=
  with_controlInputConnections (with_sliderInputConnections st O) O.

Definition accept (st : VCMatrixProperties) : VCMatrixProperties :=
  let m := Matrix.setCaption (m_nameEdit st) (m_matrix st) in
  let m := Matrix.setFunction (m_function st) m in
  let m := if m_instantCheck st then Matrix.setInstantChanges true m
           else Matrix.setInstantChanges false m in
  let m := Matrix.setInputSource (m_sliderInputSource st) m in
  let m := Matrix.resetCustomControls m in
  let m := fold_left (fun m control => Matrix.addCustomControl control m)
                     (m_controls st) m in
  with_result (with_matrix st m) (Some Accepted).

(** [reject] is not overridden: [QDialog::reject] closes the dialog with the
    result [Rejected].  Closing the window takes the same path. *)
Definition reject (st : VCMatrixProperties) : VCMatrixProperties :=
  with_result st (Some Rejected).

(** ** Events *)

(** What can reach the dialog: a click on one of its buttons (with the result
    of the child dialog the slot opens, where there is one), an edit of the
    name field, a click on a row of the tree, or a value arriving on an input
    channel (the [uchar] value is not part of the slots' signatures). *)
Inductive Event :=
| NameEdited (text : string)
| InstantCheckClicked
| AttachFunctionClicked (fs : FunctionSelection)
| DetachFunctionClicked
| AutoDetectInputButtonClicked
| ChooseInputButtonClicked (sic : SelectInputChannel)
| InputValueChanged (universe channel : Z)
| AddStartColorButtonClicked (col : QColor)
| AddEndColorButtonClicked (col : QColor)
| AddPresetButtonClicked (ok : bool) (text : string)
| AddTextButtonClicked (ok : bool) (text : string)
| TreeItemClicked (row : nat)
| RemoveButtonClicked
| AdControlInputButtonClicked
| ChooseControlInputButtonClicked (sic : SelectInputChannel)
| AttachKeyClicked (ahk : AssignHotKey)
| DetachKeyClicked
| AcceptClicked
| RejectClicked.

(** A checkable button flips on a click and emits [toggled] with its new
    state; an input value is handed to each slot once per connection. *)
Definition dispatch (ev : Event) (st : VCMatrixProperties) : VCMatrixProperties :=
  match ev with
  | NameEdited text => with_nameEdit st text
  | InstantCheckClicked => with_instantCheck st (negb (m_instantCheck st))
  | AttachFunctionClicked fs => slotAttachFunction fs st
  | DetachFunctionClicked => slotSetFunction Function_invalidId st
  | AutoDetectInputButtonClicked =>
      let checked := negb (m_autoDetectInputButton st) in
      slotAutoDetectSliderInputToggled checked (with_autoDetectInputButton st checked)
  | ChooseInputButtonClicked sic => slotChooseSliderInputClicked sic st
  | InputValueChanged universe channel =>
      let st := Nat.iter (sliderInputConnections st)
                  (slotSliderInputValueChanged universe channel) st in
      Nat.iter (controlInputConnections st)
        (slotControlInputValueChanged universe channel) st
  | AddStartColorButtonClicked col => slotAddStartColorClicked col st
  | AddEndColorButtonClicked col => slotAddEndColorClicked col st
  | AddPresetButtonClicked ok text => slotAddAnimationClicked ok text st
  | AddTextButtonClicked ok text => slotAddTextClicked ok text st
  | TreeItemClicked row =>
      match m_controlsTree st !! row with
      | Some _ => with_tree st (m_controlsTree st) (Some row)
      | None => st
      end
  | RemoveButtonClicked => slotRemoveClicked st
  | AdControlInputButtonClicked =>
      let checked := negb (m_adControlInputButton st) in
      slotAutoDetectControlInputToggled checked (with_adControlInputButton st checked)
  | ChooseControlInputButtonClicked sic => slotChooseControlInputClicked sic st
  | AttachKeyClicked ahk => slotAttachKey ahk st
  | DetachKeyClicked => slotDetachKey st
  | AcceptClicked => accept st
  | RejectClicked => reject st
  end.

(** A session: the events in the order they arrive. *)
Definition run (evs : list Event) (st : VCMatrixProperties) : VCMatrixProperties :=
  fold_left (fun st ev => dispatch ev st) evs st.

(** ** The objects behind the slider binding *)

(** [m_sliderInputSource] is a pointer to a [QLCInputSource], and so is the
    binding of the matrix.  The records above keep the value a pointer leads
    to; here are the objects themselves.  The store has one cell per object
    ever made by [new]: it holds the object while it lives and nothing once
    [delete] has freed it.  A cell is not handed out a second time, so a
    pointer to a freed object stays invalid whatever is allocated later. *)
Definition address := nat.
Definition Heap := list (option QLCInputSource).

(** A pointer is [NULL] or an address. *)
Definition pointer := option address.

Definition new_QLCInputSource (src : QLCInputSource) (h : Heap) : Heap * pointer :=
  (h ++ [Some src], Some (length h)).

(** [if (p != NULL) delete p;] *)
Definition delete_QLCInputSource (p : pointer) (h : Heap) : Heap :=
  match p with
  | Some a => <[a := None]> h
  | None => h
  end.

(** What a pointer leads to: nothing for [NULL], a live object, or an object
    that is gone. *)
Inductive Target :=
| Null
| Object (src : QLCInputSource)
| Dangling.

Definition target (h : Heap) (p : pointer) : Target :=
  match p with
  | None => Null
  | Some a =>
      match h !! a with
      | Some (Some src) => Object src
      | _ => Dangling
      end
  end.

(** The target that a binding kept by value stands for. *)
Definition binding_target (b : option QLCInputSource) : Target :=
  match b with
  | Some src => Object src
  | None => Null
  end.

(** The store, the pointer the matrix holds as its binding, and the pointer
    in [m_sliderInputSource].  (The bindings of the working controls belong
    to the editor's own copies of the controls and are not kept here.) *)
Record Memory := mkMemory {
  heap : Heap;
  matrix_inputSource : pointer;
  sliderInputSource : pointer
}.

Module Pointers.

(** Modelled from the spec: [inputSource()] is defined in vcwidget.cpp; the
    binding being "a nullable pointer to a small value struct", it returns
    the pointer the matrix holds.  The constructor stores that pointer in
    [m_sliderInputSource] as it is: unlike the controls, the binding is not
    copied. *)
Definition VCMatrixProperties_new (h : Heap) (matrix_binding : pointer) : Memory :=
  mkMemory h matrix_binding matrix_binding.

Definition slotSliderInputValueChanged (page universe channel : Z) (mem : Memory)
    : Memory :=
  let h := delete_QLCInputSource (sliderInputSource mem) (heap mem) in
  let made :=
    new_QLCInputSource
      (mkQLCInputSource universe (quint32 (Z.lor (Z.shiftl page 16) channel))) h in
  mkMemory (fst made) (matrix_inputSource mem) (snd made).

Definition slotChooseSliderInputClicked (sic : SelectInputChannel) (mem : Memory)
    : Memory :=
  match sic_exec sic with
  | Accepted =>
      let h := delete_QLCInputSource (sliderInputSource mem) (heap mem) in
      let made :=
        new_QLCInputSource
          (mkQLCInputSource (sic_universe sic) (sic_channel sic)) h in
      mkMemory (fst made) (matrix_inputSource mem) (snd made)
  | Rejected => mem
  end.

(** Modelled from the spec: [setInputSource] is defined in vcwidget.cpp; the
    matrix's "slider-binding field" is replaced by the pointer it is given. *)
Definition accept (mem : Memory) : Memory :=
  mkMemory (heap mem) (sliderInputSource mem) (sliderInputSource mem).

End Pointers.

(** What an event does to the objects: the two slots that replace the slider
    binding, the value-changed one once per connection, and the accept. *)
Definition dispatch_memory (ev : Event) (st : VCMatrixProperties) (mem : Memory)
    : Memory :=
  match ev with
  | ChooseInputButtonClicked sic => Pointers.slotChooseSliderInputClicked sic mem
  | InputValueChanged universe channel =>
      Nat.iter (sliderInputConnections st)
        (Pointers.slotSliderInputValueChanged (page (m_matrix st)) universe channel)
        mem
  | AcceptClicked => Pointers.accept mem
  | _ => mem
  end.

(** A session, followed on the editor and on the objects side by side. *)
Fixpoint run_memory (evs : list Event) (st : VCMatrixProperties) (mem : Memory)
    : Memory :=
  match evs with
  | [] => mem
  | ev :: evs' => run_memory evs' (dispatch ev st) (dispatch_memory ev st mem)
  end.

(** Does this event replace the slider binding? *)
Definition replaces_slider_binding (ev : Event) (st : VCMatrixProperties) : bool :=
  match ev with
  | ChooseInputButtonClicked sic =>
      match sic_exec sic with
      | Accepted => true
      | Rejected => false
      end
  | InputValueChanged _ _ =>
      match sliderInputConnections st with
      | O => false
      | S _ => true
      end
  | _ => false
  end.

(** Does some event of the session replace the slider binding? *)
Fixpoint slider_binding_replaced (evs : list Event) (st : VCMatrixProperties) : bool :=
  match evs with
  | [] => false
  | ev :: evs' =>
      replaces_slider_binding ev st || slider_binding_replaced evs' (dispatch ev st)
  end.

(** ** Sortedness and id bookkeeping *)

(** Ascending by id, as a check on neighbours. *)
Fixpoint sorted_by_id (l : list VCMatrixControl) : bool :=
  match l with
  | [] => true
  | c :: l' =>
      match l' with
      | [] => true
      | c' :: _ => (m_id c <=? m_id c') && sorted_by_id l'
      end
  end.

(** Does this event create a control? *)
Definition creates_control (ev : Event) : bool :=
  match ev with
  | AddStartColorButtonClicked col | AddEndColorButtonClicked col => isValid col
  | AddPresetButtonClicked ok text | AddTextButtonClicked ok text =>
      ok && negb (QString.isEmpty text)
  | _ => false
  end.

(** The ids handed out during a session, in order: the id of the control
    each creating event appends. *)
Fixpoint assigned_ids (evs : list Event) (st : VCMatrixProperties) : list Z :=
  match evs with
  | [] => []
  | ev :: evs' =>
      let st' := dispatch ev st in
      (if creates_control ev
       then match last (m_controls st') with
            | Some c => [m_id c]
            | None => []
            end
       else [])
      ++ assigned_ids evs' st'
  end.

(** The largest id of a list of controls, 0 for the empty list: the value the
    constructor seeds the counter with. *)
Definition max_id (l : list VCMatrixControl) : Z :=
  fold_left (fun acc c => if m_id c >? acc then m_id c else acc) l 0.

(** How many events of a session create a control. *)
Definition creations (evs : list Event) : Z :=
  Z.of_nat (length (List.filter creates_control evs)).

(** The largest id seen so far: the initial maximum and every id handed out
    since. *)
Definition running_max (initial : Z) (assigned : list Z) : Z :=
  fold_left Z.max assigned initial.

(** The ids of the working list, in order. *)
Definition ids (st : VCMatrixProperties) : list Z := map m_id (m_controls st).

(** No character of the string is white space. *)
Fixpoint no_space (s : string) : bool :=
  match s with
  | EmptyString => true
  | String c s' => negb (QString.isSpace c) && no_space s'
  end.

(** Each subscription is connected once when its toggle is checked and not at
    all otherwise. *)
Definition subscriptions_follow_toggles (st : VCMatrixProperties) : Prop :=
  sliderInputConnections st = (if m_autoDetectInputButton st then 1 else 0)%nat
  /\ controlInputConnections st = (if m_adControlInputButton st then 1 else 0)%nat.

(** ** Example data *)

Definition example_doc : Doc := mkDoc {[ 7 := mkFunction "Rainbow" ]}.

Definition red : QColor := mkQColor true 16711680.

Definition example_control (n : Z) : VCMatrixControl :=
  mkControl n Text (mkQColor false 0) "QLC+" None [].

(** A matrix with no custom control, on page 2, whose id is 5. *)
Definition empty_matrix : VCMatrix :=
  mkMatrix "Matrix 5" Function_invalidId false None [] 2 5.

(** The same matrix holding one control, whose id is the largest an 8-bit id
    can be. *)
Definition full_matrix : VCMatrix :=
  mkMatrix "Matrix 5" Function_invalidId false None [example_control 255] 2 5.

(** A matrix with three controls, two of them sharing an id. *)
Definition example_matrix : VCMatrix :=
  mkMatrix "Matrix 5" 7 true (Some (mkQLCInputSource 0 3))
    [example_control 4; set_resource "first" (example_control 9);
     set_resource "second" (example_control 9)] 2 5.

(** A session that touches everything the editor can change, then cancels. *)
Definition busy_session : list Event :=
  [ NameEdited "Wall"; InstantCheckClicked;
    AttachFunctionClicked (mkFS Accepted [7]);
    AddStartColorButtonClicked red; AddTextButtonClicked true "QLC+";
    TreeItemClicked 0; RemoveButtonClicked;
    TreeItemClicked 1; AttachKeyClicked (mkAHK Accepted [65]);
    ChooseControlInputButtonClicked (mkSIC Accepted 1 12);
    AdControlInputButtonClicked; AutoDetectInputButtonClicked;
    InputValueChanged 0 42;
    DetachKeyClicked; DetachFunctionClicked;
    ChooseInputButtonClicked (mkSIC Accepted 3 8) ].

(** The store in which the binding of the example matrices is the one object,
    at address 0. *)
Definition example_heap : Heap := [Some (mkQLCInputSource 0 3)].

(** A matrix whose controls are in ascending id order and whose caption does
    not hold its id. *)
Definition ascending_matrix : VCMatrix :=
  mkMatrix "Wall" 7 false (Some (mkQLCInputSource 0 3))
    [set_resource "left" (example_control 4); example_control 9;
     set_resource "right" (example_control 12)] 2 5.

(** A matrix whose three controls have the ids 4, 9 and 12. *)
Definition tidy_matrix : VCMatrix :=
  mkMatrix "Wall" 7 false (Some (mkQLCInputSource 0 3))
    [example_control 9; set_resource "left" (example_control 4);
     set_resource "right" (example_control 12)] 2 5.

(** ** Session invariants *)

(** The tree shows the working list row by row, and a selected row is one of
    its rows. *)
Definition tree_in_step (st : VCMatrixProperties) : Prop :=
  m_controlsTree st = ids st
  /\ forall r, selectedRow st = Some r -> (r < length (m_controls st))%nat.

(** No two controls share an id, every id is an 8-bit value that the counter
    has reached, and the counter is one too. *)
Definition distinct_ids (st : VCMatrixProperties) : Prop :=
  NoDup (ids st)
  /\ Forall (fun x => 0 <= x <= m_lastAssignedID st) (ids st)
  /\ 0 <= m_lastAssignedID st <= 255.

(** How many clicks on the remove button a session holds. *)
Definition removals (evs : list Event) : nat :=
  length (List.filter
            (fun ev => match ev with RemoveButtonClicked => true | _ => false end)
            evs).

(** * Properties *)

(** ** Fixed-width arithmetic *)

Lemma quint8_small x : 0 <= x < 256 -> quint8 x = x.
Proof. intros H. unfold quint8. apply Z.mod_small. exact H. Qed.

Lemma quint8_idemp x : quint8 (quint8 x) = quint8 x.
Proof. unfold quint8. apply Z.mod_mod. lia. Qed.

Lemma quint8_range x : 0 <= quint8 x < 256.
Proof. unfold quint8. apply Z.mod_pos_bound. lia. Qed.

(** ** The removal loop *)

Section RemoveLoop.
Implicit Types (l pre : list VCMatrixControl) (c : VCMatrixControl).

(** The loop returns its list, or its list without one element. *)
Lemma removeControl_loop_cases n i id l :
  removeControl_loop n i id l = l
  \/ exists j, removeControl_loop n i id l = delete j l.
Proof.
  revert i. induction n as [|n IH]; intros i; simpl; [by left|].
  destruct (l !! i) as [c|]; [|by left].
  destruct (m_id c =? id); [right; by exists i | apply IH].
Qed.

(** No control with this id: nothing happens. *)
Lemma removeControl_loop_absent n i id l :
  Forall (fun c => m_id c <> id) l -> removeControl_loop n i id l = l.
Proof.
  intros Hall. revert i. induction n as [|n IH]; intros i; simpl; [done|].
  destruct (l !! i) as [c|] eqn:Hi; [|done].
  assert (m_id c <> id) as Hne.
  { rewrite Forall_forall in Hall. apply Hall.
    apply list_elem_of_lookup. by exists i. }
  apply Z.eqb_neq in Hne. rewrite Hne. apply IH.
Qed.

(** A first control with this id, behind [l1]: it alone goes. *)
Lemma removeControl_loop_first l1 : forall pre c l2 id n,
  Forall (fun x => m_id x <> id) l1 ->
  m_id c = id ->
  (length l1 < n)%nat ->
  removeControl_loop n (length pre) id (pre ++ l1 ++ c :: l2)
  = pre ++ l1 ++ l2.
Proof.
  induction l1 as [|x l1 IH]; intros pre c l2 id n Hall Hc Hn.
  - destruct n as [|n]; [simpl in Hn; lia|]. simpl.
    rewrite list_lookup_middle by done.
    apply Z.eqb_eq in Hc. rewrite Hc. apply delete_middle.
  - destruct n as [|n]; [simpl in Hn; lia|].
    apply Forall_cons in Hall as [Hx Hall].
    cbn [removeControl_loop].
    change (pre ++ (x :: l1) ++ c :: l2) with (pre ++ x :: (l1 ++ c :: l2)).
    rewrite list_lookup_middle by done.
    apply Z.eqb_neq in Hx. rewrite Hx.
    replace (S (length pre)) with (length (pre ++ [x]))
      by (rewrite length_app; simpl; lia).
    replace (pre ++ x :: l1 ++ c :: l2) with ((pre ++ [x]) ++ l1 ++ c :: l2)
      by (by rewrite <- app_assoc).
    rewrite IH; [| done | done | simpl in Hn; lia].
    by rewrite <- app_assoc.
Qed.

End RemoveLoop.

Lemma delete_length_bounds {A} (l : list A) j :
  (length (delete j l) <= length l <= S (length (delete j l)))%nat.
Proof.
  revert j. induction l as [|x l IH]; intros [|j]; simpl; try lia.
  specialize (IH j). lia.
Qed.

(** ** Ids of the working list under each event *)

Lemma alter_keeps_ids (f : VCMatrixControl -> VCMatrixControl) i (l : list VCMatrixControl) :
  (forall c, m_id (f c) = m_id c) ->
  map m_id (alter f i l) = map m_id l.
Proof.
  intros Hf. revert i. induction l as [|c l IH]; intros [|i]; simpl; try done.
  - by rewrite Hf.
  - f_equal. apply IH.
Qed.

Lemma update_control_ids i f st :
  (forall c, m_id (f c) = m_id c) -> ids (update_control i f st) = ids st.
Proof. intros Hf. unfold ids, update_control. simpl. by apply alter_keeps_ids. Qed.

(** The fields an input value arriving at a control leaves alone. *)
Lemma slotControlInputValueChanged_frame u ch st :
  let st' := slotControlInputValueChanged u ch st in
  ids st' = ids st
  /\ m_lastAssignedID st' = m_lastAssignedID st
  /\ m_matrix st' = m_matrix st
  /\ m_sliderInputSource st' = m_sliderInputSource st
  /\ sliderInputConnections st' = sliderInputConnections st
  /\ controlInputConnections st' = controlInputConnections st
  /\ m_autoDetectInputButton st' = m_autoDetectInputButton st
  /\ m_adControlInputButton st' = m_adControlInputButton st.
Proof.
  unfold slotControlInputValueChanged.
  destruct (getSelectedControl st) as [i|]; simpl; [|done].
  split; [by apply update_control_ids | done].
Qed.

Lemma iter_slotControlInputValueChanged_frame n u ch st :
  let st' := Nat.iter n (slotControlInputValueChanged u ch) st in
  ids st' = ids st
  /\ m_lastAssignedID st' = m_lastAssignedID st
  /\ m_matrix st' = m_matrix st
  /\ m_sliderInputSource st' = m_sliderInputSource st
  /\ sliderInputConnections st' = sliderInputConnections st
  /\ controlInputConnections st' = controlInputConnections st
  /\ m_autoDetectInputButton st' = m_autoDetectInputButton st
  /\ m_adControlInputButton st' = m_adControlInputButton st.
Proof.
  induction n as [|n IH]; simpl; [done|].
  destruct (slotControlInputValueChanged_frame u ch
              (Nat.iter n (slotControlInputValueChanged u ch) st))
    as (-> & -> & -> & -> & -> & -> & -> & ->).
  exact IH.
Qed.

(** The fields an input value arriving at the slider leaves alone. *)
Lemma iter_slotSliderInputValueChanged_frame n u ch st :
  let st' := Nat.iter n (slotSliderInputValueChanged u ch) st in
  m_controls st' = m_controls st
  /\ m_lastAssignedID st' = m_lastAssignedID st
  /\ m_matrix st' = m_matrix st
  /\ sliderInputConnections st' = sliderInputConnections st
  /\ controlInputConnections st' = controlInputConnections st
  /\ m_autoDetectInputButton st' = m_autoDetectInputButton st
  /\ m_adControlInputButton st' = m_adControlInputButton st
  /\ m_controlsTree st' = m_controlsTree st
  /\ selectedRow st' = selectedRow st.
Proof. induction n as [|n IH]; simpl; [done|]. exact IH. Qed.

(** ** Events, one at a time *)

(** Unfold the slot an event runs and split on the tests it makes. *)
Ltac unfold_slots :=
  unfold slotAttachFunction, slotSetFunction, slotChooseSliderInputClicked,
    slotAutoDetectSliderInputToggled, slotAutoDetectControlInputToggled,
    slotAddStartColorClicked, slotAddEndColorClicked, slotAddAnimationClicked,
    slotAddTextClicked, slotRemoveClicked, slotChooseControlInputClicked,
    slotAttachKey, slotDetachKey, reject, updateTree, addControl,
    preincrement_lastAssignedID, update_control in *.

Ltac split_slots := unfold_slots; repeat case_match; simpl in *.

(** An event that creates a control appends it, with the counter's next
    value as its id. *)
Lemma dispatch_creating ev st :
  creates_control ev = true ->
  exists c,
    m_controls (dispatch ev st) = m_controls st ++ [c]
    /\ m_id c = quint8 (m_lastAssignedID st + 1)
    /\ m_lastAssignedID (dispatch ev st) = quint8 (m_lastAssignedID st + 1).
Proof.
  intros Hev.
  destruct ev; simpl in Hev; try discriminate; simpl; unfold_slots;
    rewrite Hev; simpl; eexists; (split; [reflexivity|]); simpl;
    split; try reflexivity; apply quint8_idemp.
Qed.

(** Any other event leaves the counter alone, and the ids of the working
    list either stay or lose one element. *)
Lemma dispatch_not_creating ev st :
  creates_control ev = false ->
  m_lastAssignedID (dispatch ev st) = m_lastAssignedID st
  /\ (ids (dispatch ev st) = ids st
      \/ exists j, ids (dispatch ev st) = delete j (ids st)).
Proof.
  intros Hev.
  destruct ev as [text| |fs| | |sic|u ch|col|col|ok text|ok text|row| | |sic|ahk| | |];
    simpl in Hev; simpl;
    try (unfold_slots; rewrite Hev);
    try (split_slots;
         (split; [reflexivity | left; first [reflexivity | by apply alter_keeps_ids]])).
  - (* an input value *)
    destruct (iter_slotControlInputValueChanged_frame
                (controlInputConnections
                   (Nat.iter (sliderInputConnections st)
                      (slotSliderInputValueChanged u ch) st))
                u ch
                (Nat.iter (sliderInputConnections st)
                   (slotSliderInputValueChanged u ch) st))
      as (Hids & Hlast & _).
    destruct (iter_slotSliderInputValueChanged_frame (sliderInputConnections st)
                u ch st) as (Hc & Hl & _).
    rewrite Hids, Hlast, Hl. unfold ids. rewrite Hc. by split; [|left].
  - (* remove *)
    unfold slotRemoveClicked.
    destruct (selectedRow st) as [row|]; [|by split; [|left]].
    destruct (m_controlsTree st !! row) as [data|]; [|by split; [|left]].
    split; [reflexivity|]. unfold ids, updateTree, removeControl. simpl.
    destruct (removeControl_loop_cases (length (m_controls st)) 0
                (quint8 (quint8 data)) (m_controls st)) as [-> | [j ->]].
    + by left.
    + right. exists j. apply list_fmap_delete.
Qed.

(** ** Sorted lists of ids *)

Lemma sorted_by_id_Sorted (l : list VCMatrixControl) :
  sorted_by_id l = true <-> Sorted Z.le (map m_id l).
Proof.
  induction l as [|c l IH]; simpl.
  - split; [constructor | done].
  - destruct l as [|c' l].
    + split; [repeat constructor | done].
    + rewrite andb_true_iff, Z.leb_le, IH. simpl. split.
      * intros [Hle Hs]. constructor; [done | by constructor].
      * intros Hs. inversion Hs as [|? ? Hs' Hhd]; subst.
        inversion Hhd; subst. done.
Qed.

Lemma sorted_by_id_StronglySorted (l : list VCMatrixControl) :
  sorted_by_id l = true <-> StronglySorted Z.le (map m_id l).
Proof.
  rewrite sorted_by_id_Sorted. split.
  - apply Sorted_StronglySorted. intros x y z. apply Z.le_trans.
  - apply StronglySorted_Sorted.
Qed.

Lemma StronglySorted_delete {A} (R : relation A) (l : list A) j :
  StronglySorted R l -> StronglySorted R (delete j l).
Proof.
  intros Hs. revert j. induction Hs as [|x l Hs IH Hall]; intros [|j]; simpl.
  - constructor.
  - constructor.
  - exact Hs.
  - constructor; [apply IH | by apply Forall_delete].
Qed.

(** [qSort] with [compareControlsID] sorts by ascending id and keeps every
    control. *)
Lemma qSort_insert_Permutation c (l : list VCMatrixControl) :
  qSort_insert compareControlsID c l ≡ₚ c :: l.
Proof.
  induction l as [|x l IH]; simpl; [done|].
  destruct (compareControlsID x c); [|done].
  rewrite IH. apply Permutation_swap.
Qed.

Lemma qSort_Permutation (l : list VCMatrixControl) :
  qSort compareControlsID l ≡ₚ l.
Proof.
  induction l as [|c l IH]; simpl; [done|].
  fold (qSort compareControlsID l).
  by rewrite qSort_insert_Permutation, IH.
Qed.

Lemma qSort_insert_sorted c (l : list VCMatrixControl) :
  Sorted Z.le (map m_id l) ->
  Sorted Z.le (map m_id (qSort_insert compareControlsID c l)).
Proof.
  induction l as [|x l IH]; simpl; intros Hs.
  - repeat constructor.
  - unfold compareControlsID. destruct (Z.ltb_spec (m_id x) (m_id c)) as [Hlt|Hge]; simpl.
    + inversion Hs as [|? ? Hs' Hhd]; subst.
      constructor; [by apply IH|].
      destruct l as [|y l]; simpl.
      * constructor. lia.
      * destruct (m_id y <? m_id c); simpl; constructor; [|lia].
        by inversion Hhd.
    + constructor; [done | by constructor].
Qed.

Lemma qSort_sorted (l : list VCMatrixControl) :
  sorted_by_id (qSort compareControlsID l) = true.
Proof.
  apply sorted_by_id_Sorted.
  induction l as [|c l IH]; simpl; [constructor|].
  by apply qSort_insert_sorted.
Qed.

(** ** Opening the editor *)

Lemma load_controls (l : list VCMatrixControl) : forall acc n,
  fold_left load_control l (acc, n)
  = (acc ++ l, fold_left (fun a c => if m_id c >? a then m_id c else a) l n).
Proof.
  induction l as [|c l IH]; intros acc n; simpl.
  - by rewrite app_nil_r.
  - unfold load_control at 2. simpl. rewrite IH.
    unfold copy_VCMatrixControl. by rewrite <- app_assoc.
Qed.

Lemma slotSetFunction_frame fid st :
  let st' := slotSetFunction fid st in
  m_matrix st' = m_matrix st /\ m_doc st' = m_doc st
  /\ m_controls st' = m_controls st
  /\ m_lastAssignedID st' = m_lastAssignedID st
  /\ m_instantCheck st' = m_instantCheck st
  /\ m_sliderInputSource st' = m_sliderInputSource st
  /\ sliderInputConnections st' = sliderInputConnections st
  /\ controlInputConnections st' = controlInputConnections st
  /\ m_autoDetectInputButton st' = m_autoDetectInputButton st
  /\ m_adControlInputButton st' = m_adControlInputButton st.
Proof. split_slots; done. Qed.

(** The state the constructor builds. *)
Lemma new_state matrix doc :
  let st := VCMatrixProperties_new matrix doc in
  m_matrix st = matrix
  /\ m_controls st = qSort compareControlsID (customControls matrix)
  /\ m_lastAssignedID st = max_id (customControls matrix)
  /\ m_sliderInputSource st = inputSource matrix
  /\ m_instantCheck st = instantChanges matrix
  /\ sliderInputConnections st = O /\ controlInputConnections st = O
  /\ m_autoDetectInputButton st = false /\ m_adControlInputButton st = false.
Proof.
  unfold VCMatrixProperties_new.
  set (st0 := mkEditor _ _ _ _ _ _ _ _ _ _ _ _ _ _ _ _).
  destruct (slotSetFunction_frame (function (m_matrix st0)) st0)
    as (Hm & _ & Hc & Hl & Hi & _ & Hsc & Hcc & Hab & Hcb).
  set (st1 := slotSetFunction _ st0) in *. clearbody st1.
  simpl in Hm, Hc, Hl, Hi, Hsc, Hcc, Hab, Hcb.
  cbv zeta. rewrite Hm.
  destruct (instantChanges matrix) eqn:Hinst; simpl;
    rewrite ?Hm, ?Hc, ?Hl, ?Hi, ?Hsc, ?Hcc, ?Hab, ?Hcb, load_controls; simpl;
    by repeat split.
Qed.

Lemma max_id_bounds (l : list VCMatrixControl) : forall n,
  let m := fold_left (fun a c => if m_id c >? a then m_id c else a) l n in
  n <= m /\ Forall (fun c => m_id c <= m) l.
Proof.
  induction l as [|c l IH]; intros n; simpl; [by split|].
  destruct (IH (if m_id c >? n then m_id c else n)) as [Hle Hall].
  destruct (Z.gtb_spec (m_id c) n); (split; [lia | constructor; [lia | done]]).
Qed.

(** ** Sessions *)

Lemma run_app evs1 evs2 st : run (evs1 ++ evs2) st = run evs2 (run evs1 st).
Proof. unfold run. apply fold_left_app. Qed.

Lemma creations_app evs1 evs2 :
  creations (evs1 ++ evs2) = creations evs1 + creations evs2.
Proof. unfold creations. rewrite List.filter_app, length_app. lia. Qed.

Lemma creations_nonneg evs : 0 <= creations evs.
Proof. unfold creations. lia. Qed.

Lemma creations_cons ev evs :
  creations (ev :: evs) = (if creates_control ev then 1 else 0) + creations evs.
Proof.
  unfold creations. simpl. destruct (creates_control ev); simpl; lia.
Qed.

Lemma assigned_ids_app evs1 evs2 st :
  assigned_ids (evs1 ++ evs2) st
  = assigned_ids evs1 st ++ assigned_ids evs2 (run evs1 st).
Proof.
  revert st. induction evs1 as [|ev evs1 IH]; intros st; simpl; [done|].
  by rewrite IH, <- app_assoc.
Qed.

(** As long as the 8-bit counter does not wrap, a session keeps the working
    list sorted and below the counter, and hands out consecutive ids. *)
Lemma run_bookkeeping evs : forall st,
  0 <= m_lastAssignedID st ->
  m_lastAssignedID st + creations evs <= 255 ->
  StronglySorted Z.le (ids st) ->
  Forall (fun x => x <= m_lastAssignedID st) (ids st) ->
  m_lastAssignedID (run evs st) = m_lastAssignedID st + creations evs
  /\ StronglySorted Z.le (ids (run evs st))
  /\ Forall (fun x => x <= m_lastAssignedID (run evs st)) (ids (run evs st))
  /\ assigned_ids evs st = seqZ (m_lastAssignedID st + 1) (creations evs).
Proof.
  induction evs as [|ev evs IH]; intros st Hpos Hbound Hsorted Hbelow.
  - simpl. rewrite Z.add_0_r. by repeat split.
  - rewrite creations_cons in Hbound |- *.
    pose proof (creations_nonneg evs) as Hn.
    change (run (ev :: evs) st) with (run evs (dispatch ev st)).
    cbn [assigned_ids].
    destruct (creates_control ev) eqn:Hev.
    + destruct (dispatch_creating ev st Hev) as (c & Hc & Hid & Hlast).
      rewrite quint8_small in Hid, Hlast by lia.
      destruct (IH (dispatch ev st)) as (H1 & H2 & H3 & H4).
      * lia.
      * lia.
      * unfold ids. rewrite Hc, map_app. simpl.
        apply StronglySorted_app_2; [| done | repeat constructor].
        intros x1 x2 Hx1 Hx2. apply list_elem_of_singleton in Hx2. subst x2.
        rewrite Forall_forall in Hbelow. specialize (Hbelow x1 Hx1). lia.
      * unfold ids. rewrite Hc, map_app, Hlast. simpl.
        apply Forall_app. split; [|repeat constructor; lia].
        eapply Forall_impl; [exact Hbelow|]. simpl. intros; lia.
      * split; [rewrite H1, Hlast; lia|]. split; [done|]. split; [done|].
        rewrite Hc, last_snoc, H4, Hid, Hlast. simpl.
        rewrite (seqZ_cons (m_lastAssignedID st + 1)) by lia.
        f_equal. f_equal; lia.
    + destruct (dispatch_not_creating ev st Hev) as (Hlast & Hids).
      destruct (IH (dispatch ev st)) as (H1 & H2 & H3 & H4).
      * lia.
      * lia.
      * destruct Hids as [-> | [j ->]]; [done | by apply StronglySorted_delete].
      * rewrite Hlast.
        destruct Hids as [-> | [j ->]]; [done | by apply Forall_delete].
      * split; [rewrite H1, Hlast; lia|]. split; [done|]. split; [done|].
        rewrite H4, Hlast. reflexivity.
Qed.

(** The state the constructor builds satisfies what [run_bookkeeping] asks. *)
Lemma new_bookkeeping matrix doc :
  let st := VCMatrixProperties_new matrix doc in
  0 <= m_lastAssignedID st
  /\ StronglySorted Z.le (ids st)
  /\ Forall (fun x => x <= m_lastAssignedID st) (ids st).
Proof.
  destruct (new_state matrix doc) as (_ & Hc & Hl & _). cbv zeta.
  unfold ids. rewrite Hc, Hl.
  destruct (max_id_bounds (customControls matrix) 0) as [Hpos Hall].
  split; [exact Hpos|]. split.
  - apply sorted_by_id_StronglySorted, qSort_sorted.
  - rewrite qSort_Permutation. apply Forall_fmap.
    eapply Forall_impl; [exact Hall|]. done.
Qed.

Lemma running_max_seqZ n : 0 <= n ->
  forall c, running_max c (seqZ (c + 1) n) = c + n.
Proof.
  intros Hn. pattern n. apply natlike_ind; [| |exact Hn].
  - intros c. unfold running_max. simpl. lia.
  - intros k Hk IH c. rewrite seqZ_cons by lia. unfold running_max in *. simpl.
    replace (Z.max c (c + 1)) with (c + 1) by lia.
    replace (Z.pred (Z.succ k)) with k by lia.
    replace (Z.succ (c + 1)) with (c + 1 + 1) by lia.
    rewrite IH. lia.
Qed.

(** Where a session stands after some of its events, inside the 8-bit range. *)
Lemma session_bookkeeping matrix doc evs :
  max_id (customControls matrix) + creations evs <= 255 ->
  let st0 := VCMatrixProperties_new matrix doc in
  let st := run evs st0 in
  0 <= max_id (customControls matrix)
  /\ m_lastAssignedID st = max_id (customControls matrix) + creations evs
  /\ StronglySorted Z.le (ids st)
  /\ Forall (fun x => x <= m_lastAssignedID st) (ids st)
  /\ assigned_ids evs st0
     = seqZ (max_id (customControls matrix) + 1) (creations evs).
Proof.
  intros Hbound. cbv zeta.
  destruct (new_bookkeeping matrix doc) as (Hpos & Hsorted & Hbelow).
  destruct (new_state matrix doc) as (_ & _ & Hl & _).
  destruct (run_bookkeeping evs (VCMatrixProperties_new matrix doc))
    as (H1 & H2 & H3 & H4); try done.
  { rewrite Hl. lia. }
  rewrite Hl in *. by repeat split.
Qed.

(** * The claims *)

(** ** Removal *)

(** C10: [removeControl] removes at most one control, the first one whose id
    matches; when no control of the working list has the id, the list is left
    exactly as it is.  (The function is total: nothing is raised.) *)
Theorem removeControl_first_match (id : Z) (st : VCMatrixProperties) :
  let l := m_controls st in
  let l' := m_controls (removeControl id st) in
  (Forall (fun c => m_id c <> quint8 id) l -> l' = l)
  /\ (forall l1 c l2,
        l = l1 ++ c :: l2 ->
        Forall (fun x => m_id x <> quint8 id) l1 ->
        m_id c = quint8 id ->
        l' = l1 ++ l2)
  /\ (length l' <= length l <= S (length l'))%nat.
Proof.
  cbv zeta. unfold removeControl. simpl. split; [|split].
  - apply removeControl_loop_absent.
  - intros l1 c l2 Hl Hl1 Hc. rewrite Hl.
    assert (length (l1 ++ c :: l2) > length l1)%nat as Hlen
      by (rewrite length_app; simpl; lia).
    exact (removeControl_loop_first l1 [] c l2 (quint8 id) _ Hl1 Hc Hlen).
  - destruct (removeControl_loop_cases (length (m_controls st)) 0 (quint8 id)
                (m_controls st)) as [-> | [j ->]]; [lia|].
    apply delete_length_bounds.
Qed.

(** On a working list where two controls share id 9, removing id 9 takes the
    first of them and leaves the second. *)
Lemma removeControl_first_match_witness :
  m_controls
    (removeControl 9
       (with_controls (VCMatrixProperties_new empty_matrix example_doc)
          (customControls example_matrix)))
  = [example_control 4; set_resource "second" (example_control 9)].
Proof.
  apply (proj1 (proj2 (removeControl_first_match 9
                         (with_controls
                            (VCMatrixProperties_new empty_matrix example_doc)
                            (customControls example_matrix))))
           [example_control 4] (set_resource "first" (example_control 9))
           [set_resource "second" (example_control 9)]).
  - reflexivity.
  - repeat constructor. vm_compute. discriminate.
  - vm_compute. reflexivity.
Defined.

(** ** Sortedness *)

(** C4, as stated, fails: ids are 8 bits wide and an add appends without
    sorting again, so the add that follows id 255 appends id 0 at the end.
    This happens on the first add over a matrix that already holds id 255, and
    on the 256th add over an empty one. *)
Lemma sorted_counterexample :
  sorted_by_id (m_controls (VCMatrixProperties_new full_matrix example_doc)) = true
  /\ ids (run [AddStartColorButtonClicked red]
            (VCMatrixProperties_new full_matrix example_doc)) = [255; 0]
  /\ sorted_by_id
       (m_controls (run [AddStartColorButtonClicked red]
                      (VCMatrixProperties_new full_matrix example_doc))) = false
  /\ sorted_by_id
       (m_controls (run (repeat (AddTextButtonClicked true "QLC+") 256)
                      (VCMatrixProperties_new empty_matrix example_doc))) = false.
Proof. vm_compute. repeat split. Qed.

(** Removing keeps a sorted list sorted, whatever the ids. *)
Lemma removeControl_sorted id st :
  sorted_by_id (m_controls st) = true ->
  sorted_by_id (m_controls (removeControl id st)) = true.
Proof.
  rewrite !sorted_by_id_StronglySorted. unfold removeControl. simpl.
  destruct (removeControl_loop_cases (length (m_controls st)) 0 (quint8 id)
              (m_controls st)) as [-> | [j ->]]; [done|].
  intros Hs. change (map m_id (delete j (m_controls st)))
    with (m_id <$> delete j (m_controls st)).
  rewrite list_fmap_delete. by apply StronglySorted_delete.
Qed.

(** C4 (amended): the working list is sorted by ascending id right after
    initialization; a remove keeps it sorted; and it is sorted after every
    event of a session, every add of any kind and every remove included, as
    long as the ids handed out stay within 8 bits: the largest initial id
    plus the number of controls created is at most 255. *)
Theorem sorted_until_wrap matrix doc :
  sorted_by_id (m_controls (VCMatrixProperties_new matrix doc)) = true
  /\ (forall st, sorted_by_id (m_controls st) = true ->
        sorted_by_id (m_controls (slotRemoveClicked st)) = true)
  /\ (forall evs,
        max_id (customControls matrix) + creations evs <= 255 ->
        forall evs1 evs2, evs = evs1 ++ evs2 ->
          sorted_by_id (m_controls (run evs1 (VCMatrixProperties_new matrix doc)))
          = true).
Proof.
  destruct (new_state matrix doc) as (_ & Hc & Hl & _).
  split; [|split].
  - rewrite Hc. apply qSort_sorted.
  - intros st Hs. unfold slotRemoveClicked.
    destruct (selectedRow st) as [row|]; [|done].
    destruct (m_controlsTree st !! row) as [data|]; [|done].
    unfold updateTree. simpl. by apply (removeControl_sorted (quint8 data) st).
  - intros evs Hbound evs1 evs2 ->.
    rewrite creations_app in Hbound. pose proof (creations_nonneg evs2).
    destruct (new_bookkeeping matrix doc) as (Hpos & Hsorted & Hbelow).
    apply sorted_by_id_StronglySorted.
    apply (run_bookkeeping evs1 (VCMatrixProperties_new matrix doc)); try done.
    rewrite Hl. lia.
Qed.

(** Two controls created over the example matrix, one of them removed: the
    list is sorted at that point of a session that goes on. *)
Lemma sorted_until_wrap_witness :
  sorted_by_id
    (m_controls
       (run [AddStartColorButtonClicked red; AddTextButtonClicked true "QLC+";
             TreeItemClicked 1; RemoveButtonClicked]
          (VCMatrixProperties_new example_matrix example_doc))) = true.
Proof.
  apply (proj2 (proj2 (sorted_until_wrap example_matrix example_doc))
           [AddStartColorButtonClicked red; AddTextButtonClicked true "QLC+";
            TreeItemClicked 1; RemoveButtonClicked; AddEndColorButtonClicked red])
    with (evs2 := [AddEndColorButtonClicked red]).
  - vm_compute. discriminate.
  - reflexivity.
Defined.

(** ** Id assignment *)

(** C3, as stated, fails: the counter is 8 bits wide.  Over an empty matrix
    the 256th control created gets id 0, below every id handed out before;
    and after the control with id 1 has been removed, the 257th control
    created is given id 1 again. *)
Lemma assigned_ids_counterexample :
  assigned_ids (repeat (AddStartColorButtonClicked red) 256)
    (VCMatrixProperties_new empty_matrix example_doc)
  = seqZ 1 255 ++ [0]
  /\ ids (run [AddStartColorButtonClicked red]
            (VCMatrixProperties_new empty_matrix example_doc)) = [1]
  /\ ids (run [AddStartColorButtonClicked red; TreeItemClicked 0; RemoveButtonClicked]
            (VCMatrixProperties_new empty_matrix example_doc)) = []
  /\ last (assigned_ids (repeat (AddEndColorButtonClicked red) 256)
             (run [AddStartColorButtonClicked red; TreeItemClicked 0;
                   RemoveButtonClicked]
                (VCMatrixProperties_new empty_matrix example_doc)))
     = Some 1.
Proof. vm_compute. repeat split. Qed.

(** C3 (amended): as long as the ids handed out stay within 8 bits (the
    largest initial id plus the number of controls created in the session is
    at most 255), the controls created, whatever their kinds, receive the
    consecutive ids that follow the largest initial id, so 1, 2, ... over an
    empty initial list; each one receives the running maximum id plus one; and
    no id present in the working list at some point of the session, in
    particular the id of a control removed later, is handed out afterwards. *)
Theorem assigned_ids_until_wrap matrix doc evs :
  max_id (customControls matrix) + creations evs <= 255 ->
  let st0 := VCMatrixProperties_new matrix doc in
  assigned_ids evs st0 = seqZ (max_id (customControls matrix) + 1) (creations evs)
  /\ (forall evs1 ev evs2,
        evs = evs1 ++ ev :: evs2 -> creates_control ev = true ->
        assigned_ids [ev] (run evs1 st0)
        = [running_max (max_id (customControls matrix)) (assigned_ids evs1 st0) + 1])
  /\ (forall evs1 evs2 c,
        evs = evs1 ++ evs2 -> c ∈ m_controls (run evs1 st0) ->
        m_id c ∉ assigned_ids evs2 (run evs1 st0)).
Proof.
  intros Hbound st0. split; [|split].
  - by apply session_bookkeeping.
  - intros evs1 ev evs2 -> Hev.
    rewrite creations_app, creations_cons, Hev in Hbound.
    pose proof (creations_nonneg evs1). pose proof (creations_nonneg evs2).
    destruct (session_bookkeeping matrix doc evs1) as (Hc0 & H1 & H2 & H3 & H4);
      [lia|].
    fold st0 in H1, H2, H3, H4.
    destruct (run_bookkeeping [ev] (run evs1 st0)) as (_ & _ & _ & H5);
      try done.
    { lia. }
    { rewrite creations_cons, Hev. unfold creations. simpl. lia. }
    rewrite H5, H4, running_max_seqZ, H1 by done.
    rewrite creations_cons, Hev. reflexivity.
  - intros evs1 evs2 c -> Hin Hassigned.
    rewrite creations_app in Hbound.
    pose proof (creations_nonneg evs1). pose proof (creations_nonneg evs2).
    destruct (session_bookkeeping matrix doc evs1) as (Hc0 & H1 & H2 & H3 & H4);
      [lia|].
    fold st0 in H1, H2, H3, H4.
    destruct (run_bookkeeping evs2 (run evs1 st0)) as (_ & _ & _ & H5);
      try done; try lia.
    rewrite H5 in Hassigned. apply elem_of_seqZ in Hassigned.
    rewrite Forall_forall in H3.
    assert (m_id c <= m_lastAssignedID (run evs1 st0)) as Hle.
    { apply H3. unfold ids. apply list_elem_of_fmap. by exists c. }
    lia.
Qed.

(** Two controls over the example matrix, whose largest id is 9: they get
    ids 10 and 11. *)
Lemma assigned_ids_until_wrap_witness :
  assigned_ids
    [AddStartColorButtonClicked red; TreeItemClicked 0; RemoveButtonClicked;
     AddTextButtonClicked true "QLC+"]
    (VCMatrixProperties_new example_matrix example_doc)
  = [10; 11].
Proof.
  apply (proj1 (assigned_ids_until_wrap example_matrix example_doc
           [AddStartColorButtonClicked red; TreeItemClicked 0; RemoveButtonClicked;
            AddTextButtonClicked true "QLC+"]
           ltac:(vm_compute; discriminate))).
Defined.

(** ** Cancel and accept *)

(** Every event but the accept leaves the matrix object alone. *)
Lemma dispatch_matrix ev st :
  ev <> AcceptClicked -> m_matrix (dispatch ev st) = m_matrix st.
Proof.
  intros Hev.
  destruct ev as [text| |fs| | |sic|u ch|col|col|ok text|ok text|row| | |sic|ahk| | |];
    simpl; try done; try (split_slots; reflexivity).
  destruct (iter_slotControlInputValueChanged_frame
              (controlInputConnections
                 (Nat.iter (sliderInputConnections st)
                    (slotSliderInputValueChanged u ch) st))
              u ch
              (Nat.iter (sliderInputConnections st)
                 (slotSliderInputValueChanged u ch) st))
    as (_ & _ & -> & _).
  apply iter_slotSliderInputValueChanged_frame.
Qed.

Lemma run_matrix evs : forall st,
  AcceptClicked ∉ evs -> m_matrix (run evs st) = m_matrix st.
Proof.
  induction evs as [|ev evs IH]; intros st Hevs; [done|].
  apply not_elem_of_cons in Hevs as [Hev Hevs].
  change (run (ev :: evs) st) with (run evs (dispatch ev st)).
  rewrite IH by done. apply dispatch_matrix. congruence.
Qed.

(** *** The binding object of the matrix *)

(** A freed cell stays freed under [delete] and [new]. *)
Lemma replace_keeps_freed src p (h : Heap) a :
  h !! a = Some None ->
  (delete_QLCInputSource p h ++ [Some src]) !! a = Some None.
Proof.
  intros Ha. apply lookup_app_l_Some.
  destruct p as [b|]; unfold delete_QLCInputSource; [|done].
  destruct (decide (b = a)) as [->|Hne].
  - apply list_lookup_insert_eq. by eapply lookup_lt_Some.
  - etrans; [by apply list_lookup_insert_ne | done].
Qed.

(** Replacing the object a pointer leads to frees it. *)
Lemma replace_frees src (h : Heap) a old :
  h !! a = Some (Some old) ->
  (delete_QLCInputSource (Some a) h ++ [Some src]) !! a = Some None.
Proof.
  intros Ha. apply lookup_app_l_Some. unfold delete_QLCInputSource.
  apply list_lookup_insert_eq. by eapply lookup_lt_Some.
Qed.

(** The object just made is what the new pointer leads to. *)
Lemma target_new src (h : Heap) :
  target (fst (new_QLCInputSource src h)) (snd (new_QLCInputSource src h))
  = Object src.
Proof.
  unfold new_QLCInputSource, target. cbn [fst snd].
  assert ((h ++ [Some src]) !! length h = Some (Some src)) as E
    by (by apply list_lookup_middle).
  unfold address, Heap in *. by rewrite E.
Qed.

Lemma iter_slotSliderInputValueChanged_pointer n pg u ch mem :
  matrix_inputSource
    (Nat.iter n (Pointers.slotSliderInputValueChanged pg u ch) mem)
  = matrix_inputSource mem.
Proof. induction n as [|n IH]; simpl; [done | exact IH]. Qed.

Lemma iter_slotSliderInputValueChanged_freed n pg u ch mem a :
  heap mem !! a = Some None ->
  heap (Nat.iter n (Pointers.slotSliderInputValueChanged pg u ch) mem) !! a
  = Some None.
Proof.
  intros Ha. induction n as [|n IH]; simpl; [done|].
  by apply replace_keeps_freed.
Qed.

(** Only the accept changes the pointer the matrix holds. *)
Lemma dispatch_memory_pointer ev st mem :
  ev <> AcceptClicked ->
  matrix_inputSource (dispatch_memory ev st mem) = matrix_inputSource mem.
Proof.
  intros Hev. destruct ev; simpl; try done.
  - unfold Pointers.slotChooseSliderInputClicked. by destruct (sic_exec sic).
  - apply iter_slotSliderInputValueChanged_pointer.
Qed.

Lemma run_memory_pointer evs : forall st mem,
  AcceptClicked ∉ evs ->
  matrix_inputSource (run_memory evs st mem) = matrix_inputSource mem.
Proof.
  induction evs as [|ev evs IH]; intros st mem Hevs; [done|].
  apply not_elem_of_cons in Hevs as [Hev Hevs]. simpl.
  rewrite IH by done. apply dispatch_memory_pointer. congruence.
Qed.

(** An event that does not replace the slider binding leaves the objects
    alone. *)
Lemma dispatch_memory_idle ev st mem :
  ev <> AcceptClicked -> replaces_slider_binding ev st = false ->
  dispatch_memory ev st mem = mem.
Proof.
  intros Hev Hidle. destruct ev; simpl in *; try done.
  - unfold Pointers.slotChooseSliderInputClicked. by destruct (sic_exec sic).
  - by destruct (sliderInputConnections st).
Qed.

(** Once freed, an object is not brought back. *)
Lemma dispatch_memory_freed ev st mem a :
  heap mem !! a = Some None -> heap (dispatch_memory ev st mem) !! a = Some None.
Proof.
  intros Ha. destruct ev; simpl; try done.
  - unfold Pointers.slotChooseSliderInputClicked.
    destruct (sic_exec sic); [done|]. by apply replace_keeps_freed.
  - by apply iter_slotSliderInputValueChanged_freed.
Qed.

Lemma run_memory_freed evs : forall st mem a,
  heap mem !! a = Some None -> heap (run_memory evs st mem) !! a = Some None.
Proof.
  induction evs as [|ev evs IH]; intros st mem a Ha; [done|].
  simpl. apply IH. by apply dispatch_memory_freed.
Qed.

(** The first event that replaces the slider binding frees the object the
    editor took from the matrix. *)
Lemma dispatch_memory_frees ev st (h : Heap) a old :
  replaces_slider_binding ev st = true -> h !! a = Some (Some old) ->
  heap (dispatch_memory ev st (Pointers.VCMatrixProperties_new h (Some a))) !! a
  = Some None.
Proof.
  intros Hev Ha. destruct ev; simpl in *; try done.
  - unfold Pointers.slotChooseSliderInputClicked.
    destruct (sic_exec sic); [done|]. by eapply replace_frees.
  - destruct (sliderInputConnections st) as [|n]; [done|].
    induction n as [|n IH].
    + by eapply replace_frees.
    + change (Nat.iter (S (S n)) ?f ?x) with (f (Nat.iter (S n) f x)).
      by apply replace_keeps_freed.
Qed.

Lemma run_memory_cancel evs : forall st (h : Heap) a old,
  AcceptClicked ∉ evs -> h !! a = Some (Some old) ->
  let mem := run_memory evs st (Pointers.VCMatrixProperties_new h (Some a)) in
  if slider_binding_replaced evs st
  then heap mem !! a = Some None
  else mem = Pointers.VCMatrixProperties_new h (Some a).
Proof.
  induction evs as [|ev evs IH]; intros st h a old Hevs Ha; [done|].
  apply not_elem_of_cons in Hevs as [Hev Hevs]. simpl.
  destruct (replaces_slider_binding ev st) eqn:Hrep; simpl.
  - apply run_memory_freed. by eapply dispatch_memory_frees.
  - rewrite dispatch_memory_idle by (done || congruence).
    by apply (IH (dispatch ev st) h a old).
Qed.

(** C1: the code does not keep the claim.  The constructor keeps the pointer
    the matrix holds as its binding, and the two slots that replace the
    slider binding delete the object behind it.  Over the example matrix,
    whose binding is the object at address 0: after auto-detection is switched
    on and one input value has come in, or after one choice in the input
    picker, cancelling leaves the matrix holding a pointer to an object that
    is gone, where before the editor opened it led to universe 0, channel 3.
    The same holds after the busy session, which does both. *)
Theorem cancel_frees_matrix_binding :
  let st0 := VCMatrixProperties_new example_matrix example_doc in
  let mem0 := Pointers.VCMatrixProperties_new example_heap (Some O) in
  let detected := [AutoDetectInputButtonClicked; InputValueChanged 1 7; RejectClicked] in
  let chosen := [ChooseInputButtonClicked (mkSIC Accepted 3 8); RejectClicked] in
  target (heap mem0) (matrix_inputSource mem0) = Object (mkQLCInputSource 0 3)
  /\ target (heap mem0) (matrix_inputSource mem0)
     = binding_target (inputSource example_matrix)
  /\ result (run detected st0) = Some Rejected
  /\ matrix_inputSource (run_memory detected st0 mem0) = Some O
  /\ target (heap (run_memory detected st0 mem0))
            (matrix_inputSource (run_memory detected st0 mem0)) = Dangling
  /\ result (run chosen st0) = Some Rejected
  /\ matrix_inputSource (run_memory chosen st0 mem0) = Some O
  /\ target (heap (run_memory chosen st0 mem0))
            (matrix_inputSource (run_memory chosen st0 mem0)) = Dangling
  /\ target (heap (run_memory (busy_session ++ [RejectClicked]) st0 mem0))
            (matrix_inputSource
               (run_memory (busy_session ++ [RejectClicked]) st0 mem0))
     = Dangling.
Proof. vm_compute. repeat split. Qed.

(** What the loop of [accept] leaves in the matrix. *)
Lemma addCustomControls (l : list VCMatrixControl) : forall m,
  let m' := fold_left (fun m control => Matrix.addCustomControl control m) l m in
  customControls m' = customControls m ++ l
  /\ caption m' = caption m /\ function m' = function m
  /\ instantChanges m' = instantChanges m /\ inputSource m' = inputSource m
  /\ page m' = page m /\ id m' = id m.
Proof.
  induction l as [|c l IH]; intros m; simpl.
  - by rewrite app_nil_r.
  - destruct (IH (Matrix.addCustomControl c m)) as (-> & -> & -> & -> & -> & -> & ->).
    simpl. by rewrite <- app_assoc.
Qed.

(** C2: accepting writes the working name, function id and instant-changes
    flag to the matrix, writes the working slider input binding, and replaces
    the matrix's custom controls by the working list, in its order; the
    matrix's page and id are not touched.  With name "Foo", function 7, the
    flag set and controls [c1; c2], the matrix then reports exactly these. *)
Theorem accept_writes_working_state (st : VCMatrixProperties) :
  let m := m_matrix (accept st) in
  caption m = m_nameEdit st
  /\ function m = m_function st
  /\ instantChanges m = m_instantCheck st
  /\ inputSource m = m_sliderInputSource st
  /\ customControls m = m_controls st
  /\ page m = page (m_matrix st) /\ id m = id (m_matrix st)
  /\ result (accept st) = Some Accepted.
Proof.
  unfold accept. cbv zeta. cbn [m_matrix with_result with_matrix result].
  match goal with
  | |- context [fold_left ?f ?l ?m0] =>
      destruct (addCustomControls l m0) as (-> & -> & -> & -> & -> & -> & ->)
  end.
  destruct (m_instantCheck st); simpl; by repeat split.
Qed.

(** The instance the specification spells out. *)
Example accept_Foo (st : VCMatrixProperties) (c1 c2 : VCMatrixControl) :
  let st' := with_controls
               (with_instantCheck (with_function (with_nameEdit st "Foo") 7) true)
               [c1; c2] in
  caption (m_matrix (accept st')) = "Foo"%string
  /\ function (m_matrix (accept st')) = 7
  /\ instantChanges (m_matrix (accept st')) = true
  /\ customControls (m_matrix (accept st')) = [c1; c2].
Proof. simpl. by repeat split. Qed.

(** ** Adds that create nothing *)

(** C5, as stated, fails for text: [slotAddTextClicked] tests [isEmpty] on
    the text as entered, without trimming it, so a text made of one space,
    empty once trimmed, does create a control. *)
Lemma blank_text_counterexample :
  QString.isEmpty (QString.simplified " ") = true
  /\ length (m_controls (VCMatrixProperties_new empty_matrix example_doc)) = O
  /\ m_lastAssignedID (VCMatrixProperties_new empty_matrix example_doc) = 0
  /\ length (m_controls (slotAddTextClicked true " "
                           (VCMatrixProperties_new empty_matrix example_doc))) = 1%nat
  /\ m_lastAssignedID (slotAddTextClicked true " "
                         (VCMatrixProperties_new empty_matrix example_doc)) = 1.
Proof. vm_compute. repeat split. Qed.

(** C5 (amended): an add whose payload is an invalid colour, a cancelled
    dialog, an empty preset choice or an empty text (empty as entered) creates
    no control: the editor state, hence the length of the working list and
    the id counter, is unchanged. *)
Theorem rejected_payload_creates_nothing (st : VCMatrixProperties)
    (rgb : Z) (ok : bool) (text : string) :
  let unchanged st' :=
    st' = st
    /\ length (m_controls st') = length (m_controls st)
    /\ m_lastAssignedID st' = m_lastAssignedID st in
  unchanged (slotAddStartColorClicked (mkQColor false rgb) st)
  /\ unchanged (slotAddEndColorClicked (mkQColor false rgb) st)
  /\ unchanged (slotAddAnimationClicked false text st)
  /\ unchanged (slotAddAnimationClicked ok EmptyString st)
  /\ unchanged (slotAddTextClicked false text st)
  /\ unchanged (slotAddTextClicked ok EmptyString st).
Proof.
  cbv zeta.
  unfold slotAddStartColorClicked, slotAddEndColorClicked,
    slotAddAnimationClicked, slotAddTextClicked.
  simpl. rewrite andb_false_r. by repeat split.
Qed.

(** ** Page folding *)

Section PageFolding.
Variables P C : Z.
Hypothesis C_16_bits : 0 <= C < 65536.






End PageFolding.

(** The selected control is a control of the working list. *)
Lemma getSelectedControl_lookup st i :
  getSelectedControl st = Some i -> exists c, m_controls st !! i = Some c.
Proof.
  unfold getSelectedControl.
  destruct (selectedRow st) as [row|]; [|done].
  destruct (m_controlsTree st !! row) as [data|]; [|done].
  destruct (list_find _ (m_controls st)) as [[j c]|] eqn:Hfind; [|done].
  simpl. intros [= <-]. apply list_find_Some in Hfind as (Hj & _). by exists c.
Qed.



(** ** Auto-naming *)

Lemma prefix_refl (s : string) : String.prefix s s = true.
Proof.
  induction s as [|a s IH]; simpl; [done|].
  destruct (ascii_dec a a); [exact IH | done].
Qed.

Lemma contains_refl (s : string) : QString.contains s s = true.
Proof.
  destruct s as [|a s]; [reflexivity|].
  cbn [QString.contains]. by rewrite prefix_refl.
Qed.

(** A string without white space is its own simplification. *)
Lemma simplified_no_space (s : string) : forall started,
  no_space s = true -> QString.simplified_from started false s = s.
Proof.
  induction s as [|c s IH]; intros started Hs; simpl in *; [done|].
  apply andb_true_iff in Hs as [Hc Hs]. apply negb_true_iff in Hc.
  rewrite Hc. f_equal. by apply IH.
Qed.

Lemma digits_no_space (d : Decimal.uint) :
  no_space (NilEmpty.string_of_uint d) = true.
Proof. induction d; simpl; done. Qed.

Lemma number_no_space (n : Z) : no_space (QString.number n) = true.
Proof.
  unfold QString.number, NilZero.string_of_uint.
  destruct (N.to_uint (Z.to_N n)) eqn:Hd; try done;
    rewrite <- Hd; apply digits_no_space.
Qed.

(** A name that is the matrix id passes the test [slotSetFunction] makes. *)
Lemma number_contains_itself (n : Z) :
  QString.contains (QString.simplified (QString.number n)) (QString.number n)
  = true.
Proof.
  unfold QString.simplified.
  rewrite simplified_no_space by apply number_no_space.
  apply contains_refl.
Qed.

(** C7, as stated, fails: the test is whether the name contains the id, not
    whether it equals it.  Over a matrix with id 5, a name such as "Matrix 5"
    or "Room 15", neither of which is "5", is replaced by the name of the
    function attached. *)
Lemma auto_naming_counterexample :
  QString.number (id empty_matrix) = "5"%string
  /\ m_nameEdit (VCMatrixProperties_new empty_matrix example_doc) = "Matrix 5"%string
  /\ m_nameEdit (run [AttachFunctionClicked (mkFS Accepted [7])]
                   (VCMatrixProperties_new empty_matrix example_doc))
     = "Rainbow"%string
  /\ m_nameEdit (run [NameEdited "Room 15"]
                   (VCMatrixProperties_new empty_matrix example_doc))
     = "Room 15"%string
  /\ m_nameEdit (run [NameEdited "Room 15"; AttachFunctionClicked (mkFS Accepted [7])]
                   (VCMatrixProperties_new empty_matrix example_doc))
     = "Rainbow"%string.
Proof. vm_compute. repeat split. Qed.

(** C7 (amended): attaching a function the document knows replaces the
    display name by the function's name exactly when the display name, with
    its white space simplified, contains the matrix's own id written in
    decimal, which is the case in particular when the name is that id;
    otherwise the display name is left as it is. *)
Theorem attach_renames_when_name_contains_id (st : VCMatrixProperties)
    (fid : Z) (func : Function) :
  Doc_function (m_doc st) fid = Some func ->
  let st' := slotAttachFunction (mkFS Accepted [fid]) st in
  let own_id := QString.number (id (m_matrix st)) in
  m_function st' = fid
  /\ m_nameEdit st'
     = (if QString.contains (QString.simplified (m_nameEdit st)) own_id
        then name func else m_nameEdit st)
  /\ (m_nameEdit st = own_id -> m_nameEdit st' = name func).
Proof.
  intros Hfunc. cbv zeta.
  unfold slotAttachFunction, slotSetFunction. simpl. rewrite Hfunc. simpl.
  assert (forall b : bool,
    m_nameEdit (if b then with_nameEdit (with_functionEdit (with_function st fid) (name func)) (name func)
                else with_functionEdit (with_function st fid) (name func))
    = if b then name func else m_nameEdit st) as Hname
    by (by intros []).
  split; [by destruct (QString.contains _ _)|].
  split; [apply Hname|].
  intros Heq. rewrite Hname, Heq, number_contains_itself. done.
Qed.

(** The matrix with id 5 named "5": attaching "Rainbow" renames it. *)
Lemma attach_renames_when_name_contains_id_witness :
  m_nameEdit
    (slotAttachFunction (mkFS Accepted [7])
       (with_nameEdit (VCMatrixProperties_new empty_matrix example_doc) "5"))
  = "Rainbow"%string.
Proof.
  apply (proj2 (proj2 (attach_renames_when_name_contains_id
                  (with_nameEdit (VCMatrixProperties_new empty_matrix example_doc) "5")
                  7 (mkFunction "Rainbow") ltac:(vm_compute; reflexivity)))).
  vm_compute. reflexivity.
Defined.

(** ** Input values while auto-detection is on *)

(** Which control is selected depends on the tree, the selected row and the
    ids of the working list only. *)
Lemma getSelectedControl_ext st st' :
  selectedRow st' = selectedRow st ->
  m_controlsTree st' = m_controlsTree st ->
  ids st' = ids st ->
  getSelectedControl st' = getSelectedControl st.
Proof.
  unfold getSelectedControl, ids. intros -> -> Hids.
  destruct (selectedRow st) as [row|]; [|done].
  destruct (m_controlsTree st !! row) as [data|]; [|done]. simpl.
  pose proof (list_find_fmap m_id (fun x => x = quint8 data) (m_controls st)) as H1.
  pose proof (list_find_fmap m_id (fun x => x = quint8 data) (m_controls st')) as H2.
  assert (m_id <$> m_controls st' = m_id <$> m_controls st) as E by exact Hids.
  rewrite E, H1 in H2.
  destruct (list_find _ (m_controls st)) as [[i c]|],
           (list_find _ (m_controls st')) as [[i' c']|]; simpl in *; congruence.
Qed.

(** One input value delivered to the selected control. *)
Lemma slotControlInputValueChanged_selected u ch st i c :
  getSelectedControl st = Some i ->
  m_controls st !! i = Some c ->
  let st' := slotControlInputValueChanged u ch st in
  getSelectedControl st' = Some i
  /\ m_controls st' !! i
     = Some (set_inputSource
               (Some (mkQLCInputSource u
                        (quint32 (Z.lor (Z.shiftl (page (m_matrix st)) 16) ch)))) c).
Proof.
  intros Hsel Hc. cbv zeta. split.
  - rewrite <- Hsel. apply getSelectedControl_ext;
      unfold slotControlInputValueChanged; rewrite Hsel; try reflexivity.
    by apply update_control_ids.
  - unfold slotControlInputValueChanged, update_control. rewrite Hsel. simpl.
    by rewrite list_lookup_alter_eq, Hc.
Qed.

(** The same value delivered once per connection, at least once. *)
Lemma iter_slotControlInputValueChanged_selected n u ch st i c :
  getSelectedControl st = Some i ->
  m_controls st !! i = Some c ->
  let st' := Nat.iter (S n) (slotControlInputValueChanged u ch) st in
  getSelectedControl st' = Some i
  /\ m_controls st' !! i
     = Some (set_inputSource
               (Some (mkQLCInputSource u
                        (quint32 (Z.lor (Z.shiftl (page (m_matrix st)) 16) ch)))) c).
Proof.
  intros Hsel Hc. induction n as [|n IH].
  - by apply slotControlInputValueChanged_selected.
  - destruct IH as [Hsel' Hc'].
    destruct (iter_slotControlInputValueChanged_frame (S n) u ch st)
      as (_ & _ & Hm & _).
    destruct (slotControlInputValueChanged_selected u ch _ i _ Hsel' Hc')
      as [Hsel'' Hc''].
    split; [exact Hsel''|].
    change (Nat.iter (S (S n)) (slotControlInputValueChanged u ch) st)
      with (slotControlInputValueChanged u ch
              (Nat.iter (S n) (slotControlInputValueChanged u ch) st)).
    rewrite Hc'', Hm. reflexivity.
Qed.

(** One input event with the slider subscribed. *)
Lemma InputValueChanged_slider u ch st :
  sliderInputConnections st <> O ->
  let st' := dispatch (InputValueChanged u ch) st in
  m_sliderInputSource st'
  = Some (mkQLCInputSource u
            (quint32 (Z.lor (Z.shiftl (page (m_matrix st)) 16) ch)))
  /\ sliderInputConnections st' = sliderInputConnections st
  /\ m_matrix st' = m_matrix st.
Proof.
  intros Hn. cbv zeta. simpl.
  match goal with
  | |- context [Nat.iter ?k (slotControlInputValueChanged u ch) ?s] =>
      destruct (iter_slotControlInputValueChanged_frame k u ch s)
        as (_ & _ & -> & -> & -> & _)
  end.
  destruct (iter_slotSliderInputValueChanged_frame (sliderInputConnections st) u ch st)
    as (_ & _ & Hm & Hs & _).
  rewrite Hm, Hs. split; [|done].
  destruct (sliderInputConnections st) as [|k]; [done|]. simpl.
  destruct (iter_slotSliderInputValueChanged_frame k u ch st) as (_ & _ & -> & _).
  reflexivity.
Qed.

(** One input event with the selected control subscribed. *)
Lemma InputValueChanged_control u ch st i c :
  controlInputConnections st <> O ->
  getSelectedControl st = Some i ->
  m_controls st !! i = Some c ->
  let st' := dispatch (InputValueChanged u ch) st in
  getSelectedControl st' = Some i
  /\ m_controls st' !! i
     = Some (set_inputSource
               (Some (mkQLCInputSource u
                        (quint32 (Z.lor (Z.shiftl (page (m_matrix st)) 16) ch)))) c)
  /\ controlInputConnections st' = controlInputConnections st
  /\ m_matrix st' = m_matrix st.
Proof.
  intros Hn Hsel Hc. cbv zeta. simpl.
  destruct (iter_slotSliderInputValueChanged_frame (sliderInputConnections st) u ch st)
    as (Hcs & _ & Hm & _ & Hcc & _ & _ & Htree & Hrow).
  set (st1 := Nat.iter (sliderInputConnections st)
                (slotSliderInputValueChanged u ch) st) in *.
  assert (getSelectedControl st1 = Some i) as Hsel1.
  { rewrite <- Hsel. apply getSelectedControl_ext; try done.
    unfold ids. by rewrite Hcs. }
  rewrite Hcc.
  destruct (controlInputConnections st) as [|k] eqn:Hk; [done|].
  rewrite <- Hcs in Hc.
  destruct (iter_slotControlInputValueChanged_selected k u ch st1 i c Hsel1 Hc)
    as [Hs Hl].
  destruct (iter_slotControlInputValueChanged_frame (S k) u ch st1)
    as (_ & _ & Hm' & _ & _ & Hcc' & _).
  rewrite Hm in Hl. rewrite Hs, Hl, Hcc', Hm', Hm, Hcc. done.
Qed.

(** C8: while auto-detection is on, the binding after two input events in a
    row is the one the second event alone gives: its universe and its folded
    channel.  This holds for the slider binding and for the binding of the
    selected control. *)
Theorem last_input_event_wins (st : VCMatrixProperties) (u1 c1 u2 c2 : Z) :
  let st' := run [InputValueChanged u1 c1; InputValueChanged u2 c2] st in
  let second :=
    mkQLCInputSource u2 (quint32 (Z.lor (Z.shiftl (page (m_matrix st)) 16) c2)) in
  (sliderInputConnections st <> O ->
     m_sliderInputSource st' = Some second
     /\ m_sliderInputSource st'
        = m_sliderInputSource (dispatch (InputValueChanged u2 c2) st))
  /\ (controlInputConnections st <> O ->
      forall i, getSelectedControl st = Some i ->
        exists c, m_controls st !! i = Some c
          /\ m_controls st' !! i = Some (set_inputSource (Some second) c)
          /\ m_controls st' !! i
             = m_controls (dispatch (InputValueChanged u2 c2) st) !! i).
Proof.
  cbv zeta. change (run [InputValueChanged u1 c1; InputValueChanged u2 c2] st)
    with (dispatch (InputValueChanged u2 c2) (dispatch (InputValueChanged u1 c1) st)).
  split.
  - intros Hn.
    destruct (InputValueChanged_slider u1 c1 st Hn) as (_ & Hn1 & Hm1).
    destruct (InputValueChanged_slider u2 c2 _ ltac:(rewrite Hn1; exact Hn))
      as (-> & _).
    destruct (InputValueChanged_slider u2 c2 st Hn) as (-> & _).
    by rewrite Hm1.
  - intros Hn i Hsel.
    destruct (getSelectedControl_lookup st i Hsel) as [c Hc]. exists c.
    destruct (InputValueChanged_control u1 c1 st i c Hn Hsel Hc)
      as (Hsel1 & Hc1 & Hn1 & Hm1).
    destruct (InputValueChanged_control u2 c2 _ i _
                ltac:(rewrite Hn1; exact Hn) Hsel1 Hc1) as (_ & -> & _).
    destruct (InputValueChanged_control u2 c2 st i c Hn Hsel Hc) as (_ & -> & _).
    by rewrite Hm1.
Qed.

(** Auto-detection switched on for the slider, then channels 42 and 7 on
    universes 0 and 1: the binding is universe 1, page 2, channel 7. *)
Lemma last_input_event_wins_witness :
  m_sliderInputSource
    (run [InputValueChanged 0 42; InputValueChanged 1 7]
       (run [AutoDetectInputButtonClicked]
          (VCMatrixProperties_new example_matrix example_doc)))
  = Some (mkQLCInputSource 1 131079).
Proof.
  apply (proj1 (proj1 (last_input_event_wins
                  (run [AutoDetectInputButtonClicked]
                     (VCMatrixProperties_new example_matrix example_doc))
                  0 42 1 7)
                ltac:(vm_compute; discriminate))).
Defined.

(** ** Subscriptions *)

(** Only the two toggles change a subscription. *)
Lemma dispatch_connections ev st :
  ev <> AutoDetectInputButtonClicked -> ev <> AdControlInputButtonClicked ->
  let st' := dispatch ev st in
  sliderInputConnections st' = sliderInputConnections st
  /\ controlInputConnections st' = controlInputConnections st
  /\ m_autoDetectInputButton st' = m_autoDetectInputButton st
  /\ m_adControlInputButton st' = m_adControlInputButton st.
Proof.
  intros Hev1 Hev2.
  destruct ev as [text| |fs| | |sic|u ch|col|col|ok text|ok text|row| | |sic|ahk| | |];
    simpl; try done; try (split_slots; done).
  destruct (iter_slotControlInputValueChanged_frame
              (controlInputConnections
                 (Nat.iter (sliderInputConnections st)
                    (slotSliderInputValueChanged u ch) st))
              u ch
              (Nat.iter (sliderInputConnections st)
                 (slotSliderInputValueChanged u ch) st))
    as (_ & _ & _ & _ & -> & -> & -> & ->).
  destruct (iter_slotSliderInputValueChanged_frame (sliderInputConnections st) u ch st)
    as (_ & _ & _ & -> & -> & -> & -> & _).
  done.
Qed.

Lemma dispatch_subscriptions ev st :
  subscriptions_follow_toggles st ->
  subscriptions_follow_toggles (dispatch ev st).
Proof.
  unfold subscriptions_follow_toggles. intros [Hs Hc].
  assert (ev = AutoDetectInputButtonClicked \/ ev = AdControlInputButtonClicked
          \/ (ev <> AutoDetectInputButtonClicked /\ ev <> AdControlInputButtonClicked))
    as [-> | [-> | [Hev1 Hev2]]]
    by (destruct ev; auto; right; right; split; discriminate).
  - simpl. unfold slotAutoDetectSliderInputToggled.
    destruct (m_autoDetectInputButton st); simpl; rewrite ?Hs, ?Hc; done.
  - simpl. unfold slotAutoDetectControlInputToggled.
    destruct (m_adControlInputButton st); simpl; rewrite ?Hs, ?Hc; done.
  - destruct (dispatch_connections ev st Hev1 Hev2) as (-> & -> & -> & ->).
    done.
Qed.

Lemma run_subscriptions evs : forall st,
  subscriptions_follow_toggles st ->
  subscriptions_follow_toggles (run evs st).
Proof.
  induction evs as [|ev evs IH]; intros st Hst; [done|].
  apply (IH (dispatch ev st)). by apply dispatch_subscriptions.
Qed.

(** C9, as stated, fails: neither the accept nor the cancel unsubscribes.
    With both auto-detections switched on, both subscriptions are still
    connected after the dialog is accepted, and after it is cancelled or
    closed. *)
Lemma exit_keeps_subscriptions_counterexample :
  sliderInputConnections
    (run [AutoDetectInputButtonClicked; AdControlInputButtonClicked; AcceptClicked]
       (VCMatrixProperties_new example_matrix example_doc)) = 1%nat
  /\ controlInputConnections
       (run [AutoDetectInputButtonClicked; AdControlInputButtonClicked; AcceptClicked]
          (VCMatrixProperties_new example_matrix example_doc)) = 1%nat
  /\ sliderInputConnections
       (run [AutoDetectInputButtonClicked; AdControlInputButtonClicked; RejectClicked]
          (VCMatrixProperties_new example_matrix example_doc)) = 1%nat
  /\ controlInputConnections
       (run [AutoDetectInputButtonClicked; AdControlInputButtonClicked; RejectClicked]
          (VCMatrixProperties_new example_matrix example_doc)) = 1%nat.
Proof. vm_compute. repeat split. Qed.

(** C9 (amended): accepting and cancelling or closing do not unsubscribe.  At
    every point of a session, also after an accept or a cancel, each
    auto-detect subscription is connected exactly when its toggle is checked;
    accept and cancel leave both subscriptions and both toggles as they are.
    A subscription is ended by switching its toggle off, or when the editor
    object is destroyed: nothing is connected to it any more then. *)
Theorem exit_keeps_subscriptions matrix doc evs :
  let st := run evs (VCMatrixProperties_new matrix doc) in
  subscriptions_follow_toggles st
  /\ (forall exit, exit ∈ [accept; reject] ->
        sliderInputConnections (exit st) = sliderInputConnections st
        /\ controlInputConnections (exit st) = controlInputConnections st
        /\ m_autoDetectInputButton (exit st) = m_autoDetectInputButton st
        /\ m_adControlInputButton (exit st) = m_adControlInputButton st)
  /\ (m_autoDetectInputButton st = true ->
        sliderInputConnections (dispatch AutoDetectInputButtonClicked st) = O)
  /\ (m_adControlInputButton st = true ->
        controlInputConnections (dispatch AdControlInputButtonClicked st) = O)
  /\ (forall exit, exit ∈ [accept; reject] ->
        sliderInputConnections (VCMatrixProperties_delete (exit st)) = O
        /\ controlInputConnections (VCMatrixProperties_delete (exit st)) = O).
Proof.
  intros st. split; [|split; [|split; [|split]]].
  - apply run_subscriptions.
    destruct (new_state matrix doc) as (_ & _ & _ & _ & _ & Hs & Hc & Hb1 & Hb2).
    unfold subscriptions_follow_toggles. by rewrite Hs, Hc, Hb1, Hb2.
  - intros exit Hexit.
    repeat (apply elem_of_cons in Hexit as [->|Hexit]; [done|]).
    by apply elem_of_nil in Hexit.
  - intros Hb. simpl. by rewrite Hb.
  - intros Hb. simpl. by rewrite Hb.
  - intros exit _. done.
Qed.

(** With slider auto-detection left on, the subscription outlives the
    cancel; switching it off first ends it. *)
Lemma exit_keeps_subscriptions_witness :
  sliderInputConnections
    (reject (run [AutoDetectInputButtonClicked]
               (VCMatrixProperties_new example_matrix example_doc))) = 1%nat
  /\ sliderInputConnections
       (dispatch AutoDetectInputButtonClicked
          (run [AutoDetectInputButtonClicked]
             (VCMatrixProperties_new example_matrix example_doc))) = O.
Proof.
  pose proof (exit_keeps_subscriptions example_matrix example_doc
                [AutoDetectInputButtonClicked]) as (Hinv & Hexit & Hoff & _).
  split.
  - destruct (Hexit reject ltac:(right; left)) as (-> & _).
    destruct Hinv as [-> _]. reflexivity.
  - apply Hoff. reflexivity.
Defined.

(** * Further properties *)

(** ** The tree and the selection *)

Lemma slotControlInputValueChanged_tree u ch st :
  let st' := slotControlInputValueChanged u ch st in
  m_controlsTree st' = m_controlsTree st
  /\ selectedRow st' = selectedRow st
  /\ length (m_controls st') = length (m_controls st).
Proof.
  unfold slotControlInputValueChanged, update_control.
  destruct (getSelectedControl st) as [i|]; simpl; [|done].
  by rewrite length_alter.
Qed.

Lemma iter_slotControlInputValueChanged_tree n u ch st :
  let st' := Nat.iter n (slotControlInputValueChanged u ch) st in
  m_controlsTree st' = m_controlsTree st
  /\ selectedRow st' = selectedRow st
  /\ length (m_controls st') = length (m_controls st).
Proof.
  induction n as [|n IH]; simpl; [done|].
  destruct (slotControlInputValueChanged_tree u ch
              (Nat.iter n (slotControlInputValueChanged u ch) st))
    as (-> & -> & ->).
  exact IH.
Qed.

Lemma update_control_tree_in_step i f st :
  (forall c, m_id (f c) = m_id c) ->
  tree_in_step st -> tree_in_step (update_control i f st).
Proof.
  unfold tree_in_step, ids, update_control. intros Hf [Htree Hsel]. simpl.
  split; [by rewrite alter_keeps_ids|].
  intros r Hr. rewrite length_alter. by apply Hsel.
Qed.

Lemma dispatch_tree_in_step ev st :
  tree_in_step st -> tree_in_step (dispatch ev st).
Proof.
  intros Hst.
  destruct ev as [text| |fs| | |sic|u ch|col|col|ok text|ok text|row| | |sic|ahk| | |];
    simpl.
  - exact Hst.
  - exact Hst.
  - unfold slotAttachFunction, slotSetFunction. by repeat case_match.
  - unfold slotSetFunction. by repeat case_match.
  - unfold slotAutoDetectSliderInputToggled. by case_match.
  - unfold slotChooseSliderInputClicked. by case_match.
  - (* an input value *)
    destruct Hst as [Htree Hsel]. unfold tree_in_step, ids in *.
    match goal with
    | |- context [Nat.iter ?k (slotControlInputValueChanged u ch) ?s] =>
        destruct (iter_slotControlInputValueChanged_tree k u ch s) as (-> & -> & ->);
        destruct (iter_slotControlInputValueChanged_frame k u ch s) as (Hids & _)
    end.
    unfold ids in Hids. rewrite Hids.
    destruct (iter_slotSliderInputValueChanged_frame (sliderInputConnections st) u ch st)
      as (-> & _ & _ & _ & _ & _ & _ & -> & ->).
    done.
  - unfold slotAddStartColorClicked. case_match; try done;
      (split; [reflexivity | intros r Hr; discriminate Hr]).
  - unfold slotAddEndColorClicked. case_match; try done;
      (split; [reflexivity | intros r Hr; discriminate Hr]).
  - unfold slotAddAnimationClicked. case_match; try done;
      (split; [reflexivity | intros r Hr; discriminate Hr]).
  - unfold slotAddTextClicked. case_match; try done;
      (split; [reflexivity | intros r Hr; discriminate Hr]).
  - (* a click on a row *)
    destruct Hst as [Htree Hsel]. unfold tree_in_step, ids in *.
    destruct (m_controlsTree st !! row) as [data|] eqn:Hrow; simpl; [|done].
    split; [done|]. intros r [= <-].
    apply lookup_lt_Some in Hrow. rewrite Htree, length_map in Hrow. done.
  - unfold slotRemoveClicked. repeat case_match; try done;
      (split; [reflexivity | intros r Hr; discriminate Hr]).
  - unfold slotAutoDetectControlInputToggled. by case_match.
  - unfold slotChooseControlInputClicked. repeat case_match; try done;
      by apply update_control_tree_in_step.
  - unfold slotAttachKey. repeat case_match; try done;
      by apply update_control_tree_in_step.
  - unfold slotDetachKey. case_match; try done;
      by apply update_control_tree_in_step.
  - exact Hst.
  - exact Hst.
Qed.

Lemma run_tree_in_step evs : forall st,
  tree_in_step st -> tree_in_step (run evs st).
Proof.
  induction evs as [|ev evs IH]; intros st Hst; [done|].
  apply (IH (dispatch ev st)). by apply dispatch_tree_in_step.
Qed.

Lemma new_tree_in_step matrix doc :
  tree_in_step (VCMatrixProperties_new matrix doc).
Proof.
  unfold VCMatrixProperties_new. cbv zeta. unfold updateTree, tree_in_step, ids.
  split; [reflexivity|]. intros r Hr. discriminate Hr.
Qed.

(** ** Distinct ids *)

Lemma dispatch_distinct_ids ev st :
  distinct_ids st ->
  (creates_control ev = true -> m_lastAssignedID st < 255) ->
  distinct_ids (dispatch ev st).
Proof.
  unfold distinct_ids. intros (Hnd & Hran & Hc) Hroom.
  destruct (creates_control ev) eqn:Hev.
  - specialize (Hroom eq_refl).
    destruct (dispatch_creating ev st Hev) as (c & Hcs & Hid & Hlast).
    rewrite quint8_small in Hid, Hlast by lia.
    unfold ids. rewrite Hcs, map_app, Hlast. simpl.
    split; [|split; [|lia]].
    + apply NoDup_app. split; [done|]. split; [|apply NoDup_singleton].
      intros x Hx Hx'. apply list_elem_of_singleton in Hx'.
      rewrite Forall_forall in Hran. specialize (Hran x Hx). lia.
    + apply Forall_app. split; [|repeat constructor; lia].
      eapply Forall_impl; [exact Hran|]. simpl. intros; lia.
  - destruct (dispatch_not_creating ev st Hev) as (-> & Hids).
    destruct Hids as [-> | [j ->]]; [done|].
    split; [|split; [by apply Forall_delete | done]].
    eapply sublist_NoDup; [exact Hnd | apply sublist_delete].
Qed.

Lemma run_distinct_ids evs : forall st,
  distinct_ids st ->
  m_lastAssignedID st + creations evs <= 255 ->
  distinct_ids (run evs st)
  /\ m_lastAssignedID (run evs st) = m_lastAssignedID st + creations evs.
Proof.
  induction evs as [|ev evs IH]; intros st Hst Hbound.
  - split; [done | unfold creations; simpl; lia].
  - rewrite creations_cons in Hbound |- *.
    pose proof (creations_nonneg evs) as Hn.
    change (run (ev :: evs) st) with (run evs (dispatch ev st)).
    assert (distinct_ids (dispatch ev st)) as Hst'.
    { apply dispatch_distinct_ids; [done|]. intros Hev. rewrite Hev in Hbound. lia. }
    assert (m_lastAssignedID (dispatch ev st)
            = m_lastAssignedID st + (if creates_control ev then 1 else 0)) as Hlast.
    { destruct (creates_control ev) eqn:Hev.
      - destruct (dispatch_creating ev st Hev) as (_ & _ & _ & ->).
        destruct Hst as (_ & _ & Hc). apply quint8_small. lia.
      - destruct (dispatch_not_creating ev st Hev) as (-> & _). lia. }
    destruct (IH (dispatch ev st) Hst') as [H1 H2]; [lia|].
    split; [done | lia].
Qed.

Lemma new_distinct_ids matrix doc :
  NoDup (map m_id (customControls matrix)) ->
  Forall (fun c => 0 <= m_id c) (customControls matrix) ->
  max_id (customControls matrix) <= 255 ->
  distinct_ids (VCMatrixProperties_new matrix doc).
Proof.
  intros Hnd Hpos Hmax.
  destruct (new_state matrix doc) as (_ & Hc & Hl & _).
  destruct (max_id_bounds (customControls matrix) 0) as [H0 Hall].
  fold (max_id (customControls matrix)) in H0, Hall.
  unfold distinct_ids, ids. rewrite Hc, Hl.
  change (map m_id (qSort compareControlsID (customControls matrix)))
    with (m_id <$> qSort compareControlsID (customControls matrix)).
  rewrite qSort_Permutation. split; [exact Hnd|]. split; [|lia].
  apply Forall_fmap. rewrite Forall_forall in Hpos, Hall |- *.
  intros c Hin. simpl. split; [by apply Hpos | by apply Hall].
Qed.

(** With distinct ids the control the slots act on is the one of the
    selected row. *)
Lemma getSelectedControl_selected_row st :
  tree_in_step st -> distinct_ids st ->
  getSelectedControl st = selectedRow st.
Proof.
  intros [Htree Hsel] (Hnd & Hran & Hc). unfold getSelectedControl.
  destruct (selectedRow st) as [r|] eqn:Hr; [|done].
  specialize (Hsel r eq_refl).
  destruct (lookup_lt_is_Some_2 (m_controls st) r Hsel) as [c Hrc].
  assert (ids st !! r = Some (m_id c)) as Hidr
    by (unfold ids; change (map m_id (m_controls st)) with (m_id <$> m_controls st);
        by rewrite list_lookup_fmap, Hrc).
  rewrite Htree, Hidr.
  assert (quint8 (m_id c) = m_id c) as ->.
  { apply quint8_small. rewrite Forall_forall in Hran.
    assert (m_id c ∈ ids st) as Hin by (by apply (list_elem_of_lookup_2 _ r)).
    specialize (Hran _ Hin). lia. }
  assert (list_find (fun control => m_id control = m_id c) (m_controls st) = Some (r, c))
    as ->; [|done].
  apply list_find_Some. split; [done|]. split; [done|].
  intros j y Hj Hlt Heq.
  assert (ids st !! j = Some (m_id c)) as Hidj
    by (unfold ids; change (map m_id (m_controls st)) with (m_id <$> m_controls st);
        by rewrite list_lookup_fmap, Hj, <- Heq).
  pose proof (NoDup_lookup _ _ _ _ Hnd Hidj Hidr). lia.
Qed.

(** With distinct ids the remove button deletes the control of the selected
    row. *)
Lemma slotRemoveClicked_selected_row st r :
  tree_in_step st -> distinct_ids st ->
  selectedRow st = Some r ->
  m_controls (slotRemoveClicked st) = delete r (m_controls st)
  /\ m_lastAssignedID (slotRemoveClicked st) = m_lastAssignedID st
  /\ selectedRow (slotRemoveClicked st) = None.
Proof.
  intros [Htree Hsel] (Hnd & Hran & Hc) Hr. unfold slotRemoveClicked.
  rewrite Hr. specialize (Hsel r Hr).
  destruct (lookup_lt_is_Some_2 (m_controls st) r Hsel) as [c Hrc].
  assert (ids st !! r = Some (m_id c)) as Hidr
    by (unfold ids; change (map m_id (m_controls st)) with (m_id <$> m_controls st);
        by rewrite list_lookup_fmap, Hrc).
  rewrite Htree, Hidr. unfold updateTree, removeControl. simpl.
  split; [|done].
  assert (quint8 (quint8 (m_id c)) = m_id c) as ->.
  { rewrite quint8_idemp. apply quint8_small. rewrite Forall_forall in Hran.
    assert (m_id c ∈ ids st) as Hin by (by apply (list_elem_of_lookup_2 _ r)).
    specialize (Hran _ Hin). lia. }
  rewrite delete_take_drop.
  rewrite <- (take_drop_middle (m_controls st) r c Hrc) at 1 2.
  apply (removeControl_loop_first (take r (m_controls st)) [] c
           (drop (S r) (m_controls st)) (m_id c)); [|done|].
  - apply Forall_forall. intros y Hy Heq.
    apply list_elem_of_lookup in Hy as [j Hj].
    assert (j < r)%nat as Hlt.
    { apply lookup_lt_Some in Hj. rewrite length_take in Hj. lia. }
    rewrite lookup_take_lt in Hj by done.
    assert (ids st !! j = Some (m_id c)) as Hidj
      by (unfold ids; change (map m_id (m_controls st)) with (m_id <$> m_controls st);
          by rewrite list_lookup_fmap, Hj, <- Heq).
    pose proof (NoDup_lookup _ _ _ _ Hnd Hidj Hidr). lia.
  - rewrite length_app, length_take. simpl. lia.
Qed.

(** Where a session stands when the matrix came with distinct ids and the
    ids handed out stay within 8 bits. *)
Lemma session_consistent matrix doc evs :
  NoDup (map m_id (customControls matrix)) ->
  Forall (fun c => 0 <= m_id c) (customControls matrix) ->
  max_id (customControls matrix) + creations evs <= 255 ->
  let st := run evs (VCMatrixProperties_new matrix doc) in
  tree_in_step st /\ distinct_ids st
  /\ m_lastAssignedID st = max_id (customControls matrix) + creations evs.
Proof.
  intros Hnd Hpos Hbound. cbv zeta.
  pose proof (creations_nonneg evs) as Hn.
  destruct (new_state matrix doc) as (_ & _ & Hl & _).
  split; [apply run_tree_in_step, new_tree_in_step|].
  rewrite <- Hl.
  apply run_distinct_ids; [|rewrite Hl; lia].
  apply new_distinct_ids; [done | done | lia].
Qed.

Lemma click_row st r :
  tree_in_step st -> (r < length (m_controls st))%nat ->
  dispatch (TreeItemClicked r) st = with_tree st (m_controlsTree st) (Some r).
Proof.
  intros [Htree _] Hr. simpl.
  destruct (m_controlsTree st !! r) as [data|] eqn:Hrow; [done|].
  apply lookup_ge_None in Hrow. rewrite Htree in Hrow. unfold ids in Hrow.
  rewrite length_map in Hrow. lia.
Qed.

(** The example matrix with ids 4, 9 and 12 meets what these sessions ask. *)
Lemma tidy_matrix_distinct : NoDup (map m_id (customControls tidy_matrix)).
Proof.
  apply NoDup_ListNoDup. vm_compute.
  repeat constructor; simpl; intuition discriminate.
Qed.

Lemma tidy_matrix_nonneg : Forall (fun c => 0 <= m_id c) (customControls tidy_matrix).
Proof. repeat constructor; vm_compute; discriminate. Qed.

(** X1: through every session the tree shows the working list: its rows carry
    the ids of the working controls, in their order, the selected row, when
    there is one, is a row of a control, and nothing is selected right after
    a control was created or the remove button was clicked. *)
Theorem tree_mirrors_working_list matrix doc evs :
  let st := run evs (VCMatrixProperties_new matrix doc) in
  m_controlsTree st = map m_id (m_controls st)
  /\ (forall r, selectedRow st = Some r ->
        exists c, m_controls st !! r = Some c /\ m_controlsTree st !! r = Some (m_id c))
  /\ (forall ev, creates_control ev = true \/ ev = RemoveButtonClicked ->
        selectedRow (dispatch ev st) = None).
Proof.
  intros st.
  destruct (run_tree_in_step evs _ (new_tree_in_step matrix doc)) as [Htree Hsel].
  fold st in Htree, Hsel. split; [exact Htree|]. split.
  - intros r Hr. specialize (Hsel r Hr).
    destruct (lookup_lt_is_Some_2 (m_controls st) r Hsel) as [c Hc].
    exists c. split; [done|]. rewrite Htree. unfold ids.
    change (map m_id (m_controls st)) with (m_id <$> m_controls st).
    by rewrite list_lookup_fmap, Hc.
  - intros ev [Hev | ->].
    + destruct ev; simpl in Hev; try discriminate; simpl; unfold_slots;
        by rewrite Hev.
    + simpl. unfold slotRemoveClicked.
      destruct (selectedRow st) as [r|] eqn:Hr; [|done].
      destruct (m_controlsTree st !! r) as [data|] eqn:Hrow; [done|].
      specialize (Hsel r eq_refl). apply lookup_ge_None in Hrow.
      rewrite Htree in Hrow. unfold ids in Hrow. rewrite length_map in Hrow. lia.
Qed.

(** X2: [getSelectedControl] gives the first working control whose id is the
    8-bit id carried by the selected row, and nothing when no row is selected
    or no control has that id. *)
Theorem getSelectedControl_first_match (st : VCMatrixProperties) :
  (forall i, getSelectedControl st = Some i ->
     exists r data c,
       selectedRow st = Some r /\ m_controlsTree st !! r = Some data
       /\ m_controls st !! i = Some c /\ m_id c = quint8 data
       /\ forall j c', (j < i)%nat -> m_controls st !! j = Some c' ->
            m_id c' <> quint8 data)
  /\ (getSelectedControl st = None <->
      selectedRow st = None
      \/ (exists r, selectedRow st = Some r /\ m_controlsTree st !! r = None)
      \/ (exists r data, selectedRow st = Some r /\ m_controlsTree st !! r = Some data
            /\ Forall (fun c => m_id c <> quint8 data) (m_controls st))).
Proof.
  unfold getSelectedControl. split.
  - intros i Hi.
    destruct (selectedRow st) as [r|]; [|done].
    destruct (m_controlsTree st !! r) as [data|] eqn:Hrow; [|done].
    destruct (list_find _ (m_controls st)) as [[j c]|] eqn:Hfind; [|done].
    simpl in Hi. injection Hi as <-.
    apply list_find_Some in Hfind as (Hj & Hc & Hfirst).
    exists r, data, c. repeat split; try done.
    intros k c' Hk Hc'. by apply (Hfirst k c').
  - destruct (selectedRow st) as [r|]; [|split; [by left | done]].
    destruct (m_controlsTree st !! r) as [data|] eqn:Hrow.
    + destruct (list_find _ (m_controls st)) as [[j c]|] eqn:Hfind; simpl.
      * split; [done|].
        intros [Hno | [(r' & Hr' & Hnone) | (r' & data' & Hr' & Hdata & Hall)]].
        -- discriminate Hno.
        -- injection Hr' as <-. congruence.
        -- injection Hr' as <-. rewrite Hrow in Hdata. injection Hdata as <-.
           assert (list_find (fun control => m_id control = quint8 data)
                     (m_controls st) = None) as Hnone
             by (by apply list_find_None).
           congruence.
      * split; [|done]. intros _. right. right. exists r, data.
        split; [done|]. split; [done|].
        exact (proj1 (list_find_None _ _) Hfind).
    + split; [|done]. intros _. right. left. by exists r.
Qed.

(** X3: in a session whose matrix came with distinct ids and which stays
    within the 8-bit ids, the control the per-control slots act on is the
    control shown at the selected row; clicking row [r] makes it the [r]-th
    working control. *)
Theorem selected_control_is_selected_row matrix doc evs :
  NoDup (map m_id (customControls matrix)) ->
  Forall (fun c => 0 <= m_id c) (customControls matrix) ->
  max_id (customControls matrix) + creations evs <= 255 ->
  let st := run evs (VCMatrixProperties_new matrix doc) in
  getSelectedControl st = selectedRow st
  /\ (forall r, (r < length (m_controls st))%nat ->
        getSelectedControl (dispatch (TreeItemClicked r) st) = Some r).
Proof.
  intros Hnd Hpos Hbound st.
  destruct (session_consistent matrix doc evs Hnd Hpos Hbound) as (Htree & Hdist & _).
  fold st in Htree, Hdist.
  split; [by apply getSelectedControl_selected_row|].
  intros r Hr.
  rewrite getSelectedControl_selected_row.
  - by rewrite click_row.
  - by apply dispatch_tree_in_step.
  - by apply dispatch_distinct_ids.
Qed.

Lemma selected_control_is_selected_row_witness :
  getSelectedControl
    (dispatch (TreeItemClicked 2)
       (run [AddStartColorButtonClicked red]
          (VCMatrixProperties_new tidy_matrix example_doc)))
  = Some 2%nat.
Proof.
  apply (proj2 (selected_control_is_selected_row tidy_matrix example_doc
                  [AddStartColorButtonClicked red]
                  tidy_matrix_distinct
                  tidy_matrix_nonneg
                  ltac:(vm_compute; discriminate)) 2%nat).
  vm_compute. lia.
Defined.

(** X4: in such a session, clicking a row and then the remove button deletes
    exactly the control of that row; the other controls keep their order, the
    id counter is not touched and nothing stays selected. *)
Theorem remove_deletes_selected_row matrix doc evs (r : nat) :
  NoDup (map m_id (customControls matrix)) ->
  Forall (fun c => 0 <= m_id c) (customControls matrix) ->
  max_id (customControls matrix) + creations evs <= 255 ->
  let st := run evs (VCMatrixProperties_new matrix doc) in
  (r < length (m_controls st))%nat ->
  let st' := run [TreeItemClicked r; RemoveButtonClicked] st in
  m_controls st' = delete r (m_controls st)
  /\ m_lastAssignedID st' = m_lastAssignedID st
  /\ selectedRow st' = None
  /\ m_controlsTree st' = delete r (m_controlsTree st).
Proof.
  intros Hnd Hpos Hbound st Hr st'.
  destruct (session_consistent matrix doc evs Hnd Hpos Hbound) as (Htree & Hdist & _).
  fold st in Htree, Hdist.
  pose proof (click_row st r Htree Hr) as Hclick.
  change st' with (slotRemoveClicked (dispatch (TreeItemClicked r) st)).
  set (st1 := dispatch (TreeItemClicked r) st) in *.
  assert (tree_in_step st1) as Htree1 by by apply dispatch_tree_in_step.
  assert (distinct_ids st1) as Hdist1 by by apply dispatch_distinct_ids.
  assert (tree_in_step (slotRemoveClicked st1)) as [Htree' _]
    by apply (dispatch_tree_in_step RemoveButtonClicked st1 Htree1).
  assert (m_controls st1 = m_controls st /\ m_lastAssignedID st1 = m_lastAssignedID st)
    as [Hc1 Hl1] by (by rewrite Hclick).
  destruct (slotRemoveClicked_selected_row st1 r Htree1 Hdist1) as (Hc & Hl & Hs).
  { by rewrite Hclick. }
  rewrite Hc1 in Hc. rewrite Hl1 in Hl.
  split; [exact Hc|]. split; [exact Hl|]. split; [exact Hs|].
  rewrite Htree'. unfold ids. rewrite Hc.
  destruct Htree as [-> _]. unfold ids.
  change (map m_id (delete r (m_controls st)))
    with (m_id <$> delete r (m_controls st)).
  apply list_fmap_delete.
Qed.

Lemma remove_deletes_selected_row_witness :
  map m_resource
    (m_controls (run [TreeItemClicked 1; RemoveButtonClicked]
                   (run [] (VCMatrixProperties_new tidy_matrix example_doc))))
  = ["left"; "right"]%string.
Proof.
  rewrite (proj1 (remove_deletes_selected_row tidy_matrix example_doc [] 1
                    tidy_matrix_distinct
                    tidy_matrix_nonneg
                    ltac:(vm_compute; discriminate)
                    ltac:(vm_compute; lia))).
  vm_compute. reflexivity.
Defined.

(** X5: in such a session with room for one more id, creating a control,
    clicking the last row and clicking the remove button gives back the
    working list as it was, while the id counter stays advanced by one: the
    id of the control just removed is not handed out again. *)
Theorem add_then_remove_restores_list matrix doc evs ev :
  NoDup (map m_id (customControls matrix)) ->
  Forall (fun c => 0 <= m_id c) (customControls matrix) ->
  max_id (customControls matrix) + creations evs + 1 <= 255 ->
  creates_control ev = true ->
  let st := run evs (VCMatrixProperties_new matrix doc) in
  let st' := run [ev; TreeItemClicked (length (m_controls st)); RemoveButtonClicked] st in
  m_controls st' = m_controls st
  /\ m_lastAssignedID st' = m_lastAssignedID st + 1
  /\ m_controlsTree st' = m_controlsTree st.
Proof.
  intros Hnd Hpos Hbound Hev st st'.
  destruct (session_consistent matrix doc evs Hnd Hpos ltac:(lia))
    as (Htree & Hdist & Hlast).
  fold st in Htree, Hdist, Hlast.
  destruct (dispatch_creating ev st Hev) as (c & Hc & Hid & Hl).
  rewrite quint8_small in Hid, Hl by (pose proof (creations_nonneg evs);
    destruct Hdist as (_ & _ & ?); lia).
  change st' with (slotRemoveClicked
                     (dispatch (TreeItemClicked (length (m_controls st)))
                        (dispatch ev st))).
  set (st1 := dispatch ev st) in *.
  assert (tree_in_step st1) as Htree1 by by apply dispatch_tree_in_step.
  assert (distinct_ids st1) as Hdist1.
  { apply dispatch_distinct_ids; [done|]. intros _.
    pose proof (creations_nonneg evs). lia. }
  assert (length (m_controls st) < length (m_controls st1))%nat as Hr
    by (rewrite Hc, length_app; simpl; lia).
  set (r := length (m_controls st)) in *.
  pose proof (click_row st1 r Htree1 Hr) as Hclick.
  set (st2 := dispatch (TreeItemClicked r) st1) in *.
  assert (tree_in_step st2) as Htree2 by by apply dispatch_tree_in_step.
  assert (distinct_ids st2) as Hdist2 by by apply dispatch_distinct_ids.
  assert (tree_in_step (slotRemoveClicked st2)) as [Htree' _]
    by apply (dispatch_tree_in_step RemoveButtonClicked st2 Htree2).
  assert (m_controls st2 = m_controls st1 /\ m_lastAssignedID st2 = m_lastAssignedID st1)
    as [Hc2 Hl2] by (by rewrite Hclick).
  destruct (slotRemoveClicked_selected_row st2 r Htree2 Hdist2) as (Hc' & Hl' & _).
  { by rewrite Hclick. }
  rewrite Hc2 in Hc'. rewrite Hl2 in Hl'.
  assert (m_controls (slotRemoveClicked st2) = m_controls st) as Hsame.
  { rewrite Hc', Hc. unfold r.
    rewrite (delete_middle (m_controls st) [] c). apply app_nil_r. }
  split; [exact Hsame|]. split; [lia|].
  rewrite Htree'. destruct Htree as [-> _]. unfold ids. by rewrite Hsame.
Qed.

Lemma add_then_remove_restores_list_witness :
  m_controls
    (run [AddTextButtonClicked true "QLC+"; TreeItemClicked 3; RemoveButtonClicked]
       (run [] (VCMatrixProperties_new tidy_matrix example_doc)))
  = m_controls (run [] (VCMatrixProperties_new tidy_matrix example_doc)).
Proof.
  apply (proj1 (add_then_remove_restores_list tidy_matrix example_doc []
                  (AddTextButtonClicked true "QLC+")
                  tidy_matrix_distinct
                  tidy_matrix_nonneg
                  ltac:(vm_compute; discriminate)
                  ltac:(reflexivity))).
Defined.

(** ** Edits of one control *)

Lemma update_control_lookup i f st j c :
  m_controls st !! j = Some c ->
  m_controls (update_control i f st) !! j = Some (if decide (i = j) then f c else c).
Proof.
  intros Hj. unfold update_control. simpl.
  rewrite list_lookup_alter. case_decide; subst; by rewrite Hj.
Qed.

(** X6: the four slots that edit a control (attach key, detach key, choose
    input, input value caught by auto-detection) leave every control but the
    selected one as it is and change one member of the selected one: the key
    slots its key sequence only, the input slots its input source only.  They
    add and remove nothing, and leave the id counter, the tree, the selection
    and the slider binding alone. *)
Theorem control_edits_are_local (st : VCMatrixProperties)
    (ahk : AssignHotKey) (sic : SelectInputChannel) (u ch : Z) :
  let same_but_key c c' :=
    m_id c' = m_id c /\ m_type c' = m_type c /\ m_color c' = m_color c
    /\ m_resource c' = m_resource c /\ m_inputSource c' = m_inputSource c in
  let same_but_input c c' :=
    m_id c' = m_id c /\ m_type c' = m_type c /\ m_color c' = m_color c
    /\ m_resource c' = m_resource c /\ m_keySequence c' = m_keySequence c in
  let local (same : VCMatrixControl -> VCMatrixControl -> Prop) st' :=
    (forall j c, m_controls st !! j = Some c ->
       exists c', m_controls st' !! j = Some c' /\ same c c'
                  /\ (getSelectedControl st <> Some j -> c' = c))
    /\ length (m_controls st') = length (m_controls st)
    /\ m_lastAssignedID st' = m_lastAssignedID st
    /\ m_controlsTree st' = m_controlsTree st
    /\ selectedRow st' = selectedRow st
    /\ m_sliderInputSource st' = m_sliderInputSource st in
  local same_but_key (slotAttachKey ahk st)
  /\ local same_but_key (slotDetachKey st)
  /\ local same_but_input (slotChooseControlInputClicked sic st)
  /\ local same_but_input (slotControlInputValueChanged u ch st).
Proof.
  cbv zeta.
  assert (forall (same : VCMatrixControl -> VCMatrixControl -> Prop),
    (forall c, same c c) ->
    (forall j c, m_controls st !! j = Some c ->
       exists c', m_controls st !! j = Some c' /\ same c c'
                  /\ (getSelectedControl st <> Some j -> c' = c))
    /\ length (m_controls st) = length (m_controls st)
    /\ m_lastAssignedID st = m_lastAssignedID st
    /\ m_controlsTree st = m_controlsTree st
    /\ selectedRow st = selectedRow st
    /\ m_sliderInputSource st = m_sliderInputSource st) as Hsame.
  { intros same Hrefl. split; [|done]. intros j c Hj. by exists c. }
  assert (forall (same : VCMatrixControl -> VCMatrixControl -> Prop) i f,
    getSelectedControl st = Some i ->
    (forall c, same c c) -> (forall c, same c (f c)) ->
    (forall j c, m_controls st !! j = Some c ->
       exists c', m_controls (update_control i f st) !! j = Some c' /\ same c c'
                  /\ (getSelectedControl st <> Some j -> c' = c))
    /\ length (m_controls (update_control i f st)) = length (m_controls st)
    /\ m_lastAssignedID (update_control i f st) = m_lastAssignedID st
    /\ m_controlsTree (update_control i f st) = m_controlsTree st
    /\ selectedRow (update_control i f st) = selectedRow st
    /\ m_sliderInputSource (update_control i f st) = m_sliderInputSource st) as Hedit.
  { intros same i f Hsel Hrefl Hf. split.
    - intros j c Hj. rewrite (update_control_lookup i f st j c Hj).
      case_decide as Hij.
      + exists (f c). split; [done|]. split; [done|]. subst j. congruence.
      + exists c. done.
    - unfold update_control. simpl. by rewrite length_alter. }
  unfold slotAttachKey, slotDetachKey, slotChooseControlInputClicked,
    slotControlInputValueChanged.
  destruct (getSelectedControl st) as [i|] eqn:Hsel.
  - split; [|split; [|split]].
    + destruct (ahk_exec ahk); [by apply Hsame | by apply Hedit].
    + by apply Hedit.
    + destruct (sic_exec sic); [by apply Hsame | by apply Hedit].
    + by apply Hedit.
  - split; [|split; [|split]]; try (by apply Hsame).
    destruct (sic_exec sic); by apply Hsame.
Qed.

(** X7: right after a control was created or the remove button was clicked,
    and right after the editor opened, no control is selected, so the four
    slots that edit a control change nothing until a row is clicked. *)
Theorem control_edits_need_a_click matrix doc evs
    (ahk : AssignHotKey) (sic : SelectInputChannel) (u ch : Z) :
  let idle st :=
    getSelectedControl st = None
    /\ slotAttachKey ahk st = st /\ slotDetachKey st = st
    /\ slotChooseControlInputClicked sic st = st
    /\ slotControlInputValueChanged u ch st = st in
  idle (VCMatrixProperties_new matrix doc)
  /\ forall ev, creates_control ev = true \/ ev = RemoveButtonClicked ->
       idle (dispatch ev (run evs (VCMatrixProperties_new matrix doc))).
Proof.
  cbv zeta.
  assert (forall st, selectedRow st = None ->
    getSelectedControl st = None
    /\ slotAttachKey ahk st = st /\ slotDetachKey st = st
    /\ slotChooseControlInputClicked sic st = st
    /\ slotControlInputValueChanged u ch st = st) as Hidle.
  { intros st Hsel.
    assert (getSelectedControl st = None) as Hnone
      by (unfold getSelectedControl; by rewrite Hsel).
    unfold slotAttachKey, slotDetachKey, slotChooseControlInputClicked,
      slotControlInputValueChanged. rewrite Hnone.
    repeat split. by destruct (sic_exec sic). }
  split.
  - apply Hidle.
    destruct (new_tree_in_step matrix doc) as [_ Hsel].
    destruct (selectedRow (VCMatrixProperties_new matrix doc)) as [r|] eqn:Hr; [|done].
    exfalso. revert Hr. unfold VCMatrixProperties_new. cbv zeta. unfold updateTree.
    discriminate.
  - intros ev Hev. apply Hidle.
    destruct (run_tree_in_step evs _ (new_tree_in_step matrix doc)) as [Htree Hsel].
    set (st := run evs (VCMatrixProperties_new matrix doc)) in *.
    destruct Hev as [Hev | ->].
    + destruct ev; simpl in Hev; try discriminate; simpl; unfold_slots;
        by rewrite Hev.
    + simpl. unfold slotRemoveClicked.
      destruct (selectedRow st) as [r|] eqn:Hr; [|done].
      destruct (m_controlsTree st !! r) as [data|] eqn:Hrow; [done|].
      specialize (Hsel r eq_refl). apply lookup_ge_None in Hrow.
      rewrite Htree in Hrow. unfold ids in Hrow. rewrite length_map in Hrow. lia.
Qed.

(** ** Attaching a function *)

(** X8: attaching the function that is already attached changes nothing more:
    [slotSetFunction] with the same id twice in a row gives the state it gives
    once, through the attach dialog as well; and of two functions attached one
    after the other, the editor holds the second. *)
Theorem attaching_twice_is_attaching_once (st : VCMatrixProperties)
    (fid gid : Z) (fs : FunctionSelection) :
  slotSetFunction fid (slotSetFunction fid st) = slotSetFunction fid st
  /\ slotAttachFunction fs (slotAttachFunction fs st) = slotAttachFunction fs st
  /\ m_function (slotSetFunction gid (slotSetFunction fid st)) = gid.
Proof.
  assert (forall f, slotSetFunction f (slotSetFunction f st) = slotSetFunction f st)
    as Hidem.
  { intros f. unfold slotSetFunction. simpl.
    destruct (Doc_function (m_doc st) f) as [func|] eqn:Hf; simpl.
    - destruct (QString.contains (QString.simplified (m_nameEdit st)) _) eqn:Hc;
        simpl; rewrite Hf; simpl.
      + destruct (QString.contains (QString.simplified (name func)) _);
          reflexivity.
      + rewrite Hc. reflexivity.
    - rewrite Hf. reflexivity. }
  split; [apply Hidem|]. split.
  - unfold slotAttachFunction.
    destruct (fs_exec fs); [done|].
    destruct (fs_selection fs) as [|first rest]; [done|]. apply Hidem.
  - unfold slotSetFunction. simpl. by repeat case_match.
Qed.

(** ** Opening the editor on a matrix *)

Lemma max_id_attained (l : list VCMatrixControl) : forall n,
  let m := fold_left (fun a c => if m_id c >? a then m_id c else a) l n in
  m = n \/ exists c, c ∈ l /\ m_id c = m.
Proof.
  induction l as [|c l IH]; intros n; simpl; [by left|].
  destruct (IH (if m_id c >? n then m_id c else n)) as [-> | (c' & Hin & Heq)].
  - destruct (m_id c >? n); [|by left].
    right. exists c. split; [by left | done].
  - right. exists c'. split; [by right | done].
Qed.

Lemma new_function_and_name matrix doc :
  let st := VCMatrixProperties_new matrix doc in
  m_function st = function matrix
  /\ m_nameEdit st
     = match Doc_function doc (function matrix) with
       | Some func =>
           if QString.contains (QString.simplified (caption matrix))
                               (QString.number (id matrix))
           then name func else caption matrix
       | None => caption matrix
       end.
Proof.
  unfold VCMatrixProperties_new. cbv zeta. unfold updateTree.
  match goal with
  | |- context [slotSetFunction ?f ?s0] =>
      assert (m_function (slotSetFunction f s0) = function matrix
              /\ m_nameEdit (slotSetFunction f s0)
                 = match Doc_function doc (function matrix) with
                   | Some func =>
                       if QString.contains (QString.simplified (caption matrix))
                                           (QString.number (id matrix))
                       then name func else caption matrix
                   | None => caption matrix
                   end) as [Hf Hn]
        by (unfold slotSetFunction; simpl;
            destruct (Doc_function doc (function matrix)); simpl; [|done];
            by destruct (QString.contains _ _));
      set (st1 := slotSetFunction f s0) in *; clearbody st1
  end.
  by destruct (instantChanges (m_matrix st1)).
Qed.

(** X9: opening the editor loads a rearrangement of the matrix's controls,
    none lost and none twice; the id counter starts at the largest id among
    them (0 when there is none, or when none is positive); the function, the
    instant-changes flag and the slider binding are the matrix's; and the
    name shown is the caption, or the attached function's name when the
    document knows the function and the caption contains the matrix id. *)
Theorem opening_loads_the_matrix matrix doc :
  let st := VCMatrixProperties_new matrix doc in
  m_controls st ≡ₚ customControls matrix
  /\ (forall c, c ∈ customControls matrix -> m_id c <= m_lastAssignedID st)
  /\ (m_lastAssignedID st = 0
      \/ exists c, c ∈ customControls matrix /\ m_id c = m_lastAssignedID st)
  /\ m_function st = function matrix
  /\ m_instantCheck st = instantChanges matrix
  /\ m_sliderInputSource st = inputSource matrix
  /\ m_nameEdit st
     = match Doc_function doc (function matrix) with
       | Some func =>
           if QString.contains (QString.simplified (caption matrix))
                               (QString.number (id matrix))
           then name func else caption matrix
       | None => caption matrix
       end.
Proof.
  intros st.
  destruct (new_state matrix doc) as (_ & Hc & Hl & Hs & Hi & _).
  destruct (new_function_and_name matrix doc) as [Hf Hn].
  fold st in Hc, Hl, Hs, Hi, Hf, Hn.
  destruct (max_id_bounds (customControls matrix) 0) as [_ Hall].
  split; [rewrite Hc; apply qSort_Permutation|].
  split; [intros c Hin; rewrite Hl; rewrite Forall_forall in Hall; by apply Hall|].
  split; [rewrite Hl; apply max_id_attained|].
  done.
Qed.

Lemma matrix_eq (m m' : VCMatrix) :
  caption m = caption m' -> function m = function m' ->
  instantChanges m = instantChanges m' -> inputSource m = inputSource m' ->
  customControls m = customControls m' -> page m = page m' -> id m = id m' ->
  m = m'.
Proof. destruct m, m'. simpl. by intros -> -> -> -> -> -> ->. Qed.

(** What [accept] leaves in the matrix, member by member. *)
Lemma accept_matrix st :
  m_matrix (accept st)
  = mkMatrix (m_nameEdit st) (m_function st) (m_instantCheck st)
      (m_sliderInputSource st) (m_controls st)
      (page (m_matrix st)) (id (m_matrix st)).
Proof.
  unfold accept. cbv zeta. cbn [m_matrix with_result with_matrix].
  match goal with
  | |- context [fold_left ?f ?l ?m0] =>
      destruct (addCustomControls l m0) as (H1 & H2 & H3 & H4 & H5 & H6 & H7)
  end.
  apply matrix_eq; simpl; rewrite ?H1, ?H2, ?H3, ?H4, ?H5, ?H6, ?H7;
    destruct (m_instantCheck st); done.
Qed.

(** A list whose ids go strictly up is left as it is by the sort. *)
Lemma qSort_sorted_id (l : list VCMatrixControl) :
  StronglySorted Z.lt (map m_id l) -> qSort compareControlsID l = l.
Proof.
  induction l as [|c l IH]; simpl; [done|].
  intros Hs. apply StronglySorted_inv in Hs as [Hs Hall].
  fold (qSort compareControlsID l). rewrite IH by done.
  destruct l as [|x l]; [done|]. simpl.
  apply Forall_cons in Hall as [Hlt _].
  unfold compareControlsID. destruct (Z.ltb_spec (m_id x) (m_id c)); [lia | done].
Qed.

(** X10: opening the editor and accepting at once is not always a no-op.  The
    matrix keeps its function, instant-changes flag, slider binding, page and
    id; its controls come back sorted by id, none lost; and its caption is
    replaced by the function's name when the document knows the function and
    the caption contains the matrix id. *)
Theorem accept_without_edits matrix doc :
  let m := m_matrix (accept (VCMatrixProperties_new matrix doc)) in
  function m = function matrix
  /\ instantChanges m = instantChanges matrix
  /\ inputSource m = inputSource matrix
  /\ page m = page matrix /\ id m = id matrix
  /\ customControls m ≡ₚ customControls matrix
  /\ sorted_by_id (customControls m) = true
  /\ caption m
     = match Doc_function doc (function matrix) with
       | Some func =>
           if QString.contains (QString.simplified (caption matrix))
                               (QString.number (id matrix))
           then name func else caption matrix
       | None => caption matrix
       end.
Proof.
  cbv zeta. rewrite accept_matrix.
  cbn [caption function instantChanges inputSource customControls page id].
  destruct (new_state matrix doc) as (-> & -> & _ & -> & -> & _).
  destruct (new_function_and_name matrix doc) as [-> ->].
  repeat split.
  - apply qSort_Permutation.
  - apply qSort_sorted.
Qed.

(** X11: opening the editor and accepting at once gives back the very same
    matrix when its controls are in strictly ascending id order and its
    caption is not up for auto-naming (the document does not know the
    function, or the caption does not contain the matrix id). *)
Theorem accept_without_edits_round_trip matrix doc :
  StronglySorted Z.lt (map m_id (customControls matrix)) ->
  Doc_function doc (function matrix) = None
  \/ QString.contains (QString.simplified (caption matrix))
                      (QString.number (id matrix)) = false ->
  m_matrix (accept (VCMatrixProperties_new matrix doc)) = matrix.
Proof.
  intros Hsorted Hname. rewrite accept_matrix.
  destruct (new_state matrix doc) as (-> & -> & _ & -> & -> & _).
  destruct (new_function_and_name matrix doc) as [-> ->].
  rewrite qSort_sorted_id by done.
  apply matrix_eq; simpl; try done.
  destruct Hname as [-> | Hc]; [done|].
  destruct (Doc_function doc (function matrix)); [|done]. by rewrite Hc.
Qed.

(** A matrix with three controls, of ids 4, 9 and 12 in this order, whose
    caption "Wall" does not hold its id 5, comes back as it was. *)
Lemma accept_without_edits_round_trip_witness :
  m_matrix (accept (VCMatrixProperties_new ascending_matrix example_doc))
  = ascending_matrix.
Proof.
  apply (accept_without_edits_round_trip ascending_matrix example_doc).
  - vm_compute. repeat constructor.
  - right. vm_compute. reflexivity.
Defined.

(** ** Input values and the auto-detect toggles *)

Lemma session_subscriptions matrix doc evs :
  subscriptions_follow_toggles (run evs (VCMatrixProperties_new matrix doc)).
Proof.
  apply run_subscriptions.
  destruct (new_state matrix doc) as (_ & _ & _ & _ & _ & Hs & Hc & Hb1 & Hb2).
  unfold subscriptions_follow_toggles. by rewrite Hs, Hc, Hb1, Hb2.
Qed.

(** X12: at any point of a session an input value reaches only what is
    subscribed: with the slider toggle off the slider binding stays, with the
    control toggle off every control stays, and with both off the event
    leaves the whole editor state as it is.  In no case does it touch the
    id counter or the number of controls. *)
Theorem input_reaches_subscribed_only matrix doc evs (u ch : Z) :
  let st := run evs (VCMatrixProperties_new matrix doc) in
  let st' := dispatch (InputValueChanged u ch) st in
  (m_autoDetectInputButton st = false ->
     m_sliderInputSource st' = m_sliderInputSource st)
  /\ (m_adControlInputButton st = false -> m_controls st' = m_controls st)
  /\ (m_autoDetectInputButton st = false -> m_adControlInputButton st = false ->
      st' = st)
  /\ m_lastAssignedID st' = m_lastAssignedID st
  /\ length (m_controls st') = length (m_controls st).
Proof.
  intros st st'. destruct (session_subscriptions matrix doc evs) as [Hs Hc].
  fold st in Hs, Hc. unfold st'. simpl.
  destruct (iter_slotSliderInputValueChanged_frame (sliderInputConnections st) u ch st)
    as (Hcs & Hl & _ & _ & Hcc & _).
  set (st1 := Nat.iter (sliderInputConnections st)
                (slotSliderInputValueChanged u ch) st) in *.
  destruct (iter_slotControlInputValueChanged_frame (controlInputConnections st1)
              u ch st1) as (_ & Hl' & _ & Hsl & _).
  destruct (iter_slotControlInputValueChanged_tree (controlInputConnections st1)
              u ch st1) as (_ & _ & Hlen).
  split; [|split; [|split; [|split]]].
  - intros Hoff. rewrite Hsl. unfold st1. rewrite Hs, Hoff. reflexivity.
  - intros Hoff. rewrite Hcc, Hc, Hoff. simpl. exact Hcs.
  - intros Hoff1 Hoff2. rewrite Hcc, Hc, Hoff2. simpl.
    unfold st1. rewrite Hs, Hoff1. reflexivity.
  - by rewrite Hl', Hl.
  - by rewrite Hlen, Hcs.
Qed.

Lemma input_reaches_subscribed_only_witness :
  dispatch (InputValueChanged 0 42)
    (run [AddStartColorButtonClicked red; TreeItemClicked 0]
       (VCMatrixProperties_new tidy_matrix example_doc))
  = run [AddStartColorButtonClicked red; TreeItemClicked 0]
      (VCMatrixProperties_new tidy_matrix example_doc).
Proof.
  apply (proj1 (proj2 (proj2 (input_reaches_subscribed_only tidy_matrix example_doc
           [AddStartColorButtonClicked red; TreeItemClicked 0] 0 42))));
    vm_compute; reflexivity.
Defined.

(** X13: at any point of a session, clicking an auto-detect toggle twice
    brings the editor back to the very state it was in: the subscription made
    by the first click is dropped by the second, or the other way round. *)
Theorem toggling_twice_restores matrix doc evs :
  let st := run evs (VCMatrixProperties_new matrix doc) in
  run [AutoDetectInputButtonClicked; AutoDetectInputButtonClicked] st = st
  /\ run [AdControlInputButtonClicked; AdControlInputButtonClicked] st = st.
Proof.
  intros st. pose proof (session_subscriptions matrix doc evs) as Hinv.
  fold st in Hinv. clearbody st.
  destruct st as [m d nm fe f ic src cs last tree sel slider_on control_on ns nc res].
  unfold subscriptions_follow_toggles in Hinv. simpl in Hinv.
  destruct Hinv as [-> ->]. unfold run. simpl.
  unfold slotAutoDetectSliderInputToggled, slotAutoDetectControlInputToggled.
  split.
  - by destruct slider_on.
  - by destruct control_on.
Qed.

(** ** Removal, the other controls *)

(** A list either has no control of a given id or splits at the first one. *)
Lemma first_match_split (l : list VCMatrixControl) (x : Z) :
  Forall (fun c => m_id c <> x) l
  \/ exists l1 c l2, l = l1 ++ c :: l2
       /\ Forall (fun c' => m_id c' <> x) l1 /\ m_id c = x.
Proof.
  induction l as [|a l IH]; [by left|].
  destruct (decide (m_id a = x)) as [Ha|Ha].
  - right. exists [], a, l. by repeat split.
  - destruct IH as [Hall | (l1 & c & l2 & -> & Hl1 & Hc)].
    + left. by constructor.
    + right. exists (a :: l1), c, l2. repeat split; [|done]. by constructor.
Qed.

Lemma filter_absent (l : list VCMatrixControl) (x : Z) :
  Forall (fun c => m_id c <> x) l -> filter (fun c => m_id c = x) l = [].
Proof.
  induction 1 as [|a l Ha Hall IH]; [done|].
  by rewrite filter_cons_False.
Qed.

(** X14: [removeControl] leaves every control with another id in the list,
    in the same order, and takes away exactly one control with the given id
    when there is one; it does not touch the id counter. *)
Theorem removeControl_keeps_other_ids (id : Z) (st : VCMatrixProperties) :
  let l := m_controls st in
  let l' := m_controls (removeControl id st) in
  filter (fun c => m_id c <> quint8 id) l' = filter (fun c => m_id c <> quint8 id) l
  /\ length (filter (fun c => m_id c = quint8 id) l')
     = Nat.pred (length (filter (fun c => m_id c = quint8 id) l))
  /\ m_lastAssignedID (removeControl id st) = m_lastAssignedID st.
Proof.
  cbv zeta. unfold removeControl. simpl. split; [|split; [|done]].
  - destruct (first_match_split (m_controls st) (quint8 id))
      as [Hall | (l1 & c & l2 & Hl & Hl1 & Hc)].
    + by rewrite removeControl_loop_absent.
    + rewrite Hl.
      pose proof (removeControl_loop_first l1 [] c l2 (quint8 id)
                    (length (l1 ++ c :: l2)) Hl1 Hc
                    ltac:(rewrite length_app; simpl; lia)) as E.
      simpl in E. rewrite E.
      rewrite !filter_app, filter_cons_False; [done|]. by intros [].
  - destruct (first_match_split (m_controls st) (quint8 id))
      as [Hall | (l1 & c & l2 & Hl & Hl1 & Hc)].
    + rewrite removeControl_loop_absent by done.
      by rewrite filter_absent.
    + rewrite Hl.
      pose proof (removeControl_loop_first l1 [] c l2 (quint8 id)
                    (length (l1 ++ c :: l2)) Hl1 Hc
                    ltac:(rewrite length_app; simpl; lia)) as E.
      simpl in E. rewrite E.
      rewrite !filter_app, filter_cons_True by done.
      by rewrite (filter_absent l1).
Qed.

(** ** Ids past the wrap *)

(** X15: whatever the session, the controls created receive the counter's
    successive values modulo 256: the [k]-th one gets (counter + k) mod 256.
    So every id handed out is between 0 and 255, and after 256 creations the
    ids start to repeat. *)
Theorem assigned_ids_modulo_256 (evs : list Event) : forall st,
  assigned_ids evs st
  = (fun k => quint8 (m_lastAssignedID st + k)) <$> seqZ 1 (creations evs)
  /\ Forall (fun x => 0 <= x <= 255) (assigned_ids evs st)
  /\ quint8 (m_lastAssignedID (run evs st))
     = quint8 (m_lastAssignedID st + creations evs).
Proof.
  induction evs as [|ev evs IH]; intros st.
  - unfold creations. simpl. rewrite Z.add_0_r. by repeat split.
  - pose proof (creations_nonneg evs) as Hn.
    change (run (ev :: evs) st) with (run evs (dispatch ev st)).
    rewrite creations_cons. cbn [assigned_ids].
    destruct (IH (dispatch ev st)) as (H1 & H2 & H3).
    destruct (creates_control ev) eqn:Hev.
    + destruct (dispatch_creating ev st Hev) as (c & Hc & Hid & Hlast).
      rewrite Hc, last_snoc, Hid. rewrite Hlast in H1, H3.
      assert (forall k, quint8 (quint8 (m_lastAssignedID st + 1) + k)
                        = quint8 (m_lastAssignedID st + (1 + k))) as Hshift.
      { intros k. unfold quint8. rewrite Zplus_mod_idemp_l. f_equal. lia. }
      split; [|split].
      * rewrite (seqZ_cons 1) by lia.
        replace (Z.pred (1 + creations evs)) with (creations evs) by lia.
        change (Z.succ 1) with (1 + 1).
        rewrite <- fmap_add_seqZ, fmap_cons, <- list_fmap_compose.
        rewrite H1. simpl. f_equal.
        apply list_fmap_ext. intros i k _. simpl. apply Hshift.
      * simpl. constructor; [|done]. pose proof (quint8_range (m_lastAssignedID st + 1)).
        lia.
      * rewrite H3, Hshift. f_equal. 
    + destruct (dispatch_not_creating ev st Hev) as (Hlast & _).
      rewrite Hlast in H1, H3. simpl. by repeat split.
Qed.

(** ** What a session hands to the matrix *)

(** X16: when the matrix came with distinct ids and the session stays within
    the 8-bit ids, accepting hands the matrix the working list, which is
    sorted by id and whose ids are again distinct and between 0 and 255: what
    these sessions ask of the matrix holds again for the next one. *)
Theorem accept_hands_over_distinct_sorted_ids matrix doc evs :
  NoDup (map m_id (customControls matrix)) ->
  Forall (fun c => 0 <= m_id c) (customControls matrix) ->
  max_id (customControls matrix) + creations evs <= 255 ->
  let st := run evs (VCMatrixProperties_new matrix doc) in
  let m := m_matrix (accept st) in
  customControls m = m_controls st
  /\ sorted_by_id (customControls m) = true
  /\ NoDup (map m_id (customControls m))
  /\ Forall (fun c => 0 <= m_id c) (customControls m)
  /\ max_id (customControls m) <= 255.
Proof.
  intros Hnd Hpos Hbound st m.
  destruct (session_consistent matrix doc evs Hnd Hpos Hbound)
    as (_ & (Hnd' & Hran & Hc) & Hlast).
  fold st in Hnd', Hran, Hc, Hlast.
  destruct (new_bookkeeping matrix doc) as (H0 & Hsorted & Hbelow).
  destruct (new_state matrix doc) as (_ & _ & Hl & _).
  destruct (run_bookkeeping evs (VCMatrixProperties_new matrix doc))
    as (_ & Hs & _); try done.
  { rewrite Hl. lia. }
  fold st in Hs.
  unfold m. rewrite accept_matrix. cbn [customControls].
  split; [done|]. split; [by apply sorted_by_id_StronglySorted|].
  split; [exact Hnd'|].
  assert (Forall (fun c => 0 <= m_id c <= m_lastAssignedID st) (m_controls st))
    as Hran'.
  { unfold ids in Hran. change (map m_id (m_controls st))
      with (m_id <$> m_controls st) in Hran.
    by apply Forall_fmap in Hran. }
  split.
  - eapply Forall_impl; [exact Hran'|]. simpl. intros; lia.
  - destruct (max_id_attained (m_controls st) 0) as [Hz | (c & Hin & Heq)].
    + unfold max_id. rewrite Hz. lia.
    + unfold max_id. rewrite <- Heq.
      rewrite Forall_forall in Hran'. specialize (Hran' c Hin). lia.
Qed.

Lemma accept_hands_over_distinct_sorted_ids_witness :
  map m_id
    (customControls
       (m_matrix
          (accept
             (run [AddStartColorButtonClicked red; TreeItemClicked 0;
                   RemoveButtonClicked]
                (VCMatrixProperties_new tidy_matrix example_doc)))))
  = [9; 12; 13].
Proof.
  rewrite (proj1 (accept_hands_over_distinct_sorted_ids tidy_matrix example_doc
                    [AddStartColorButtonClicked red; TreeItemClicked 0;
                     RemoveButtonClicked]
                    tidy_matrix_distinct tidy_matrix_nonneg
                    ltac:(vm_compute; discriminate))).
  vm_compute. reflexivity.
Defined.

(** ** How the working list grows and shrinks *)

Lemma dispatch_keeps_ids ev st :
  creates_control ev = false -> ev <> RemoveButtonClicked ->
  ids (dispatch ev st) = ids st.
Proof.
  intros Hev Hrm.
  destruct ev as [text| |fs| | |sic|u ch|col|col|ok text|ok text|row| | |sic|ahk| | |];
    simpl in Hev; simpl; try done;
    try (unfold_slots; rewrite Hev; reflexivity);
    try (split_slots; first [reflexivity | by apply alter_keeps_ids]).
  destruct (iter_slotControlInputValueChanged_frame
              (controlInputConnections
                 (Nat.iter (sliderInputConnections st)
                    (slotSliderInputValueChanged u ch) st))
              u ch
              (Nat.iter (sliderInputConnections st)
                 (slotSliderInputValueChanged u ch) st))
    as (-> & _).
  destruct (iter_slotSliderInputValueChanged_frame (sliderInputConnections st) u ch st)
    as (Hc & _).
  unfold ids. by rewrite Hc.
Qed.

(** X17: over any session the working list grows by one with each control
    created, shrinks by at most one with each click on the remove button, and
    keeps its length under every other event: its final length is at most
    the initial length plus the creations, and at least that minus the
    remove clicks. *)
Theorem working_list_length (evs : list Event) : forall st,
  (length (m_controls (run evs st))
   <= length (m_controls st) + Z.to_nat (creations evs))%nat
  /\ (length (m_controls st) + Z.to_nat (creations evs)
      <= length (m_controls (run evs st)) + removals evs)%nat.
Proof.
  assert (forall st, length (m_controls st) = length (ids st)) as Hlen
    by (intros st; unfold ids; by rewrite length_map).
  induction evs as [|ev evs IH]; intros st.
  - unfold creations, removals. simpl. lia.
  - change (run (ev :: evs) st) with (run evs (dispatch ev st)).
    specialize (IH (dispatch ev st)).
    pose proof (creations_nonneg evs) as Hn.
    rewrite creations_cons.
    assert (removals (ev :: evs)
            = ((match ev with RemoveButtonClicked => 1 | _ => 0 end) + removals evs)%nat)
      as Hrm by (unfold removals; by destruct ev).
    rewrite Hrm.
    destruct (creates_control ev) eqn:Hev.
    + destruct (dispatch_creating ev st Hev) as (c & Hc & _).
      rewrite Hc, length_app in IH. simpl in IH.
      replace (Z.to_nat (1 + creations evs)) with (S (Z.to_nat (creations evs)))
        by lia.
      destruct ev; simpl in Hev; try discriminate; lia.
    + replace (Z.to_nat (0 + creations evs)) with (Z.to_nat (creations evs)) by lia.
      destruct (dispatch_not_creating ev st Hev) as (_ & Hids).
      assert (ev = RemoveButtonClicked \/ ev <> RemoveButtonClicked) as [-> | Hne]
        by (destruct ev; auto; right; discriminate).
      * rewrite !Hlen in *.
        destruct Hids as [E | [j E]]; rewrite E in IH; [lia|].
        pose proof (delete_length_bounds (ids st) j). lia.
      * rewrite !Hlen in *. rewrite (dispatch_keeps_ids ev st Hev Hne) in IH.
        destruct ev; try done; lia.
Qed.

(** ** The last edit of a control wins *)

Lemma alter_twice {A} (f g : A -> A) i (l : list A) :
  alter f i (alter g i l) = alter (fun x => f (g x)) i l.
Proof.
  revert i. induction l as [|x l IH]; intros [|i]; simpl; try done.
  f_equal. apply IH.
Qed.

Lemma update_control_twice i f g st :
  (forall c, m_id (g c) = m_id c) ->
  getSelectedControl st = Some i ->
  getSelectedControl (update_control i g st) = Some i
  /\ update_control i f (update_control i g st)
     = update_control i (fun c => f (g c)) st.
Proof.
  intros Hg Hsel. split.
  - rewrite <- Hsel. apply getSelectedControl_ext; try reflexivity.
    by apply update_control_ids.
  - unfold update_control. simpl. f_equal. apply alter_twice.
Qed.

(** X18: edits of the selected control do not pile up.  Detaching the key
    after attaching one gives the state detaching alone gives, and detaching
    twice is detaching once; a binding chosen in the dialog replaces one
    caught by auto-detection, and the other way round, for the control as for
    the slider. *)
Theorem last_control_edit_wins (st : VCMatrixProperties)
    (ahk : AssignHotKey) (uni chn u ch : Z) :
  slotDetachKey (slotAttachKey ahk st) = slotDetachKey st
  /\ slotDetachKey (slotDetachKey st) = slotDetachKey st
  /\ slotChooseControlInputClicked (mkSIC Accepted uni chn)
       (slotControlInputValueChanged u ch st)
     = slotChooseControlInputClicked (mkSIC Accepted uni chn) st
  /\ slotControlInputValueChanged u ch
       (slotChooseControlInputClicked (mkSIC Accepted uni chn) st)
     = slotControlInputValueChanged u ch st
  /\ slotChooseSliderInputClicked (mkSIC Accepted uni chn)
       (slotSliderInputValueChanged u ch st)
     = slotChooseSliderInputClicked (mkSIC Accepted uni chn) st
  /\ slotSliderInputValueChanged u ch
       (slotChooseSliderInputClicked (mkSIC Accepted uni chn) st)
     = slotSliderInputValueChanged u ch st.
Proof.
  assert (forall i f g,
    (forall c, m_id (g c) = m_id c) -> (forall c, f (g c) = f c) ->
    getSelectedControl st = Some i ->
    getSelectedControl (update_control i g st) = Some i
    /\ update_control i f (update_control i g st) = update_control i f st) as Hwin.
  { intros i f g Hg Hfg Hsel.
    destruct (update_control_twice i f g st Hg Hsel) as [H1 H2].
    split; [exact H1|]. rewrite H2. unfold update_control. f_equal.
    apply list_alter_ext; [|done]. intros c _. apply Hfg. }
  unfold slotDetachKey, slotAttachKey, slotChooseControlInputClicked,
    slotControlInputValueChanged. simpl.
  destruct (getSelectedControl st) as [i|] eqn:Hsel.
  - split; [|split; [|split; [|split; [|split; reflexivity]]]].
    + destruct (ahk_exec ahk); [by rewrite Hsel|].
      destruct (Hwin i (set_keySequence []) (set_keySequence (ahk_keySequence ahk)))
        as [-> ->]; done.
    + destruct (Hwin i (set_keySequence []) (set_keySequence [])) as [-> ->]; done.
    + match goal with
      | |- context [update_control i (set_inputSource ?v) st] =>
          destruct (Hwin i (set_inputSource
                              (Some (mkQLCInputSource uni chn))) (set_inputSource v))
            as [-> ->]; done
      end.
    + destruct (update_control_twice i
                  (set_inputSource
                     (Some (mkQLCInputSource u
                        (quint32 (Z.lor (Z.shiftl (page (m_matrix st)) 16) ch)))))
                  (set_inputSource (Some (mkQLCInputSource uni chn))) st)
        as [H1 H2]; [done | done |].
      rewrite H1. etransitivity; [exact H2|]. reflexivity.
  - rewrite ?Hsel. by repeat split.
Qed.

(** ** Removal when ids are shared *)

Lemma dispatch_ids_8_bits ev st :
  Forall (fun x => 0 <= x <= 255) (ids st) ->
  Forall (fun x => 0 <= x <= 255) (ids (dispatch ev st)).
Proof.
  intros Hran. destruct (creates_control ev) eqn:Hev.
  - destruct (dispatch_creating ev st Hev) as (c & Hc & Hid & _).
    unfold ids. rewrite Hc, map_app. apply Forall_app. split; [exact Hran|].
    simpl. constructor; [|done]. rewrite Hid.
    pose proof (quint8_range (m_lastAssignedID st + 1)). lia.
  - destruct (dispatch_not_creating ev st Hev) as (_ & [-> | [j ->]]);
      [done | by apply Forall_delete].
Qed.

Lemma run_ids_8_bits evs : forall st,
  Forall (fun x => 0 <= x <= 255) (ids st) ->
  Forall (fun x => 0 <= x <= 255) (ids (run evs st)).
Proof.
  induction evs as [|ev evs IH]; intros st Hst; [done|].
  apply (IH (dispatch ev st)). by apply dispatch_ids_8_bits.
Qed.

(** X19: whatever the session over a matrix with 8-bit ids, also past the
    wrap and with ids shared by several controls, clicking a row and then the
    remove button deletes the first working control that has the id of the
    clicked row, which is the control of that row only when no earlier
    control shares its id; the same control is the one the per-control slots
    act on. *)
Theorem remove_deletes_first_with_row_id matrix doc evs (r : nat)
    (c : VCMatrixControl) :
  Forall (fun c => 0 <= m_id c <= 255) (customControls matrix) ->
  let st := run evs (VCMatrixProperties_new matrix doc) in
  m_controls st !! r = Some c ->
  exists r0 c0,
    (r0 <= r)%nat /\ m_controls st !! r0 = Some c0 /\ m_id c0 = m_id c
    /\ (forall j c', (j < r0)%nat -> m_controls st !! j = Some c' ->
          m_id c' <> m_id c)
    /\ getSelectedControl (dispatch (TreeItemClicked r) st) = Some r0
    /\ m_controls (run [TreeItemClicked r; RemoveButtonClicked] st)
       = delete r0 (m_controls st).
Proof.
  intros Hbits st Hr.
  pose proof (run_tree_in_step evs _ (new_tree_in_step matrix doc)) as Htree.
  assert (Forall (fun x => 0 <= x <= 255) (ids st)) as Hran.
  { apply run_ids_8_bits. destruct (new_state matrix doc) as (_ & Hc & _).
    unfold ids. rewrite Hc.
    change (map m_id (qSort compareControlsID (customControls matrix)))
      with (m_id <$> qSort compareControlsID (customControls matrix)).
    rewrite qSort_Permutation. by apply Forall_fmap. }
  fold st in Htree.
  assert (r < length (m_controls st))%nat as Hlt by by apply lookup_lt_Some in Hr.
  pose proof (click_row st r Htree Hlt) as Hclick.
  destruct Htree as [Htree _].
  assert (m_controlsTree st !! r = Some (m_id c)) as Hrow.
  { rewrite Htree. unfold ids.
    change (map m_id (m_controls st)) with (m_id <$> m_controls st).
    by rewrite list_lookup_fmap, Hr. }
  assert (quint8 (m_id c) = m_id c) as Hq.
  { apply quint8_small. rewrite Forall_forall in Hran.
    assert (m_id c ∈ ids st) as Hin.
    { unfold ids. change (map m_id (m_controls st)) with (m_id <$> m_controls st).
      apply list_elem_of_fmap. exists c. split; [done|].
      by apply (list_elem_of_lookup_2 _ r). }
    specialize (Hran _ Hin). lia. }
  destruct (first_match_split (m_controls st) (m_id c))
    as [Hall | (l1 & c0 & l2 & Hl & Hl1 & Hc0)].
  { rewrite Forall_forall in Hall.
    destruct (Hall c); [by apply (list_elem_of_lookup_2 _ r) | done]. }
  assert (m_controls st !! length l1 = Some c0) as Hr0
    by (rewrite Hl; by apply list_lookup_middle).
  assert (forall j c', (j < length l1)%nat -> m_controls st !! j = Some c' ->
            m_id c' <> m_id c) as Hfirst.
  { intros j c' Hj Hc'. rewrite Hl, lookup_app_l in Hc' by done.
    rewrite Forall_forall in Hl1. apply Hl1. by apply (list_elem_of_lookup_2 _ j). }
  exists (length l1), c0.
  split.
  { destruct (decide (length l1 <= r)%nat) as [|Hgt]; [done|].
    exfalso. apply (Hfirst r c); [lia | done | done]. }
  split; [done|]. split; [done|]. split; [done|].
  change (run [TreeItemClicked r; RemoveButtonClicked] st)
    with (slotRemoveClicked (dispatch (TreeItemClicked r) st)).
  rewrite Hclick. split.
  - unfold getSelectedControl. simpl. rewrite Hrow, Hq.
    assert (list_find (fun control => m_id control = m_id c) (m_controls st)
            = Some (length l1, c0)) as ->; [|done].
    apply list_find_Some. split; [done|]. split; [done|].
    intros j y Hy Hj. by apply (Hfirst j y).
  - unfold slotRemoveClicked. simpl. rewrite Hrow.
    unfold updateTree, removeControl. simpl. rewrite quint8_idemp, Hq.
    pose proof (removeControl_loop_first l1 [] c0 l2 (m_id c)
                  (length (l1 ++ c0 :: l2)) Hl1 Hc0
                  ltac:(rewrite length_app; simpl; lia)) as E.
    simpl in E. rewrite Hl, E. by rewrite delete_middle.
Qed.

(** Over the matrix where two controls share id 9, clicking the row of the
    second and removing takes the first one away. *)
Lemma remove_deletes_first_with_row_id_witness :
  exists r0 c0,
    (r0 <= 2)%nat
    /\ m_controls (run [] (VCMatrixProperties_new example_matrix example_doc)) !! r0
       = Some c0
    /\ m_id c0 = m_id (set_resource "second" (example_control 9))
    /\ (forall j c', (j < r0)%nat ->
          m_controls (run [] (VCMatrixProperties_new example_matrix example_doc)) !! j
          = Some c' ->
          m_id c' <> m_id (set_resource "second" (example_control 9)))
    /\ getSelectedControl
         (dispatch (TreeItemClicked 2)
            (run [] (VCMatrixProperties_new example_matrix example_doc)))
       = Some r0
    /\ m_controls
         (run [TreeItemClicked 2; RemoveButtonClicked]
            (run [] (VCMatrixProperties_new example_matrix example_doc)))
       = delete r0
           (m_controls (run [] (VCMatrixProperties_new example_matrix example_doc))).
Proof.
  apply (remove_deletes_first_with_row_id example_matrix example_doc [] 2
           (set_resource "second" (example_control 9))).
  - repeat constructor; vm_compute; discriminate.
  - vm_compute. reflexivity.
Defined.

(** ** The slider binding and the objects behind it *)

(** An event that does not replace the slider binding leaves the value the
    editor holds for it as it is. *)
Lemma dispatch_slider_binding ev st :
  replaces_slider_binding ev st = false ->
  m_sliderInputSource (dispatch ev st) = m_sliderInputSource st.
Proof.
  intros Hev.
  destruct ev as [text| |fs| | |sic|u ch|col|col|ok text|ok text|row| | |sic|ahk| | |];
    simpl in Hev; simpl; try done; try (split_slots; done).
  destruct (sliderInputConnections st) as [|n]; [|done]. simpl.
  destruct (iter_slotControlInputValueChanged_frame (controlInputConnections st)
              u ch st) as (_ & _ & _ & -> & _).
  done.
Qed.

(** After each event the pointer in [m_sliderInputSource] leads to the
    binding the editor's record holds. *)
Lemma dispatch_memory_slider ev st mem :
  target (heap mem) (sliderInputSource mem)
  = binding_target (m_sliderInputSource st) ->
  target (heap (dispatch_memory ev st mem))
         (sliderInputSource (dispatch_memory ev st mem))
  = binding_target (m_sliderInputSource (dispatch ev st)).
Proof.
  intros Hagree.
  destruct (replaces_slider_binding ev st) eqn:Hrep.
  - destruct ev as [text| |fs| | |sic|u ch|col|col|ok text|ok text|row| | |sic|ahk| | |];
      simpl in Hrep; try discriminate.
    + simpl. unfold Pointers.slotChooseSliderInputClicked, slotChooseSliderInputClicked.
      destruct (sic_exec sic); [discriminate|].
      cbn [heap sliderInputSource]. apply target_new.
    + destruct (sliderInputConnections st) as [|n] eqn:Hn; [discriminate|].
      destruct (InputValueChanged_slider u ch st) as (-> & _);
        [by rewrite Hn|].
      simpl. rewrite Hn.
      change (Nat.iter (S n) ?f ?x) with (f (Nat.iter n f x)).
      unfold Pointers.slotSliderInputValueChanged at 1 2.
      cbn [heap sliderInputSource]. apply target_new.
  - rewrite dispatch_slider_binding by done.
    assert (ev = AcceptClicked \/ ev <> AcceptClicked) as [-> | Hev]
      by (destruct ev; auto; right; discriminate).
    { exact Hagree. }
    by rewrite dispatch_memory_idle.
Qed.

Lemma run_memory_slider evs : forall st mem,
  target (heap mem) (sliderInputSource mem)
  = binding_target (m_sliderInputSource st) ->
  target (heap (run_memory evs st mem)) (sliderInputSource (run_memory evs st mem))
  = binding_target (m_sliderInputSource (run evs st)).
Proof.
  induction evs as [|ev evs IH]; intros st mem Hagree; [done|].
  simpl. apply IH. by apply dispatch_memory_slider.
Qed.

Lemma run_memory_app evs1 evs2 : forall st mem,
  run_memory (evs1 ++ evs2) st mem
  = run_memory evs2 (run evs1 st) (run_memory evs1 st mem).
Proof.
  induction evs1 as [|ev evs1 IH]; intros st mem; [done|].
  simpl. apply IH.
Qed.

(** X20: what a session without an accept does to the binding of the matrix.
    The matrix keeps its caption, function, instant-changes flag and
    controls, and the pointer it holds as its binding.  The object behind
    that pointer, alive when the editor opens, is still there with its
    content when no event of the session replaced the slider binding (an
    input value with the slider subscribed, or a choice confirmed in the
    picker); as soon as one did, the object is gone and the matrix is left
    with a dangling pointer, whatever follows. *)
Theorem cancel_and_the_matrix_binding matrix doc evs
    (h : Heap) (a : address) (src : QLCInputSource) :
  h !! a = Some (Some src) ->
  AcceptClicked ∉ evs ->
  let st0 := VCMatrixProperties_new matrix doc in
  let m := m_matrix (run evs st0) in
  let mem := run_memory evs st0 (Pointers.VCMatrixProperties_new h (Some a)) in
  caption m = caption matrix
  /\ function m = function matrix
  /\ instantChanges m = instantChanges matrix
  /\ customControls m = customControls matrix
  /\ matrix_inputSource mem = Some a
  /\ target (heap mem) (matrix_inputSource mem)
     = if slider_binding_replaced evs st0 then Dangling else Object src.
Proof.
  intros Ha Hevs st0 m mem.
  assert (m = matrix) as ->.
  { unfold m, st0. rewrite run_matrix by done. apply new_state. }
  assert (matrix_inputSource mem = Some a) as Hp.
  { unfold mem. by rewrite run_memory_pointer. }
  rewrite Hp. repeat (split; [reflexivity|]).
  pose proof (run_memory_cancel evs st0 h a src Hevs Ha) as Hmem.
  fold mem in Hmem. unfold target.
  destruct (slider_binding_replaced evs st0).
  - unfold address, Heap in *. by rewrite Hmem.
  - rewrite Hmem. cbn [heap Pointers.VCMatrixProperties_new].
    unfold address, Heap in *. by rewrite Ha.
Qed.

(** Over the example matrix, a session that edits everything but the slider
    binding and is then cancelled leaves the binding object in place. *)
Lemma cancel_and_the_matrix_binding_witness :
  target
    (heap (run_memory
             [NameEdited "Wall"; AddStartColorButtonClicked red;
              InputValueChanged 1 7; ChooseInputButtonClicked (mkSIC Rejected 3 8);
              RejectClicked]
             (VCMatrixProperties_new example_matrix example_doc)
             (Pointers.VCMatrixProperties_new example_heap (Some O))))
    (matrix_inputSource
       (run_memory
          [NameEdited "Wall"; AddStartColorButtonClicked red;
           InputValueChanged 1 7; ChooseInputButtonClicked (mkSIC Rejected 3 8);
           RejectClicked]
          (VCMatrixProperties_new example_matrix example_doc)
          (Pointers.VCMatrixProperties_new example_heap (Some O))))
  = Object (mkQLCInputSource 0 3).
Proof.
  apply (proj2 (proj2 (proj2 (proj2 (proj2
           (cancel_and_the_matrix_binding example_matrix example_doc
              [NameEdited "Wall"; AddStartColorButtonClicked red;
               InputValueChanged 1 7; ChooseInputButtonClicked (mkSIC Rejected 3 8);
               RejectClicked]
              example_heap O (mkQLCInputSource 0 3)
              ltac:(reflexivity)
              ltac:(intros H;
                    repeat (apply elem_of_cons in H as [H|H]; [discriminate H|]);
                    by apply elem_of_nil in H))))))).
Defined.

(** X21: the editor's record and the objects agree on the slider binding.
    When the pointer the matrix holds leads to the binding recorded for the
    matrix, then after any session the pointer in [m_sliderInputSource] leads
    to the binding the editor's record holds, a live object or [NULL]; and
    right after an accept the pointer the matrix holds leads to the binding
    the accept wrote. *)
Theorem slider_pointer_leads_to_binding matrix doc evs (h : Heap) (p : pointer) :
  target h p = binding_target (inputSource matrix) ->
  let st0 := VCMatrixProperties_new matrix doc in
  let mem0 := Pointers.VCMatrixProperties_new h p in
  target (heap (run_memory evs st0 mem0)) (sliderInputSource (run_memory evs st0 mem0))
  = binding_target (m_sliderInputSource (run evs st0))
  /\ target (heap (run_memory (evs ++ [AcceptClicked]) st0 mem0))
            (matrix_inputSource (run_memory (evs ++ [AcceptClicked]) st0 mem0))
     = binding_target (inputSource (m_matrix (run (evs ++ [AcceptClicked]) st0))).
Proof.
  intros Hagree st0 mem0.
  assert (target (heap (run_memory evs st0 mem0))
                 (sliderInputSource (run_memory evs st0 mem0))
          = binding_target (m_sliderInputSource (run evs st0))) as Hrun.
  { apply run_memory_slider. unfold st0, mem0.
    destruct (new_state matrix doc) as (_ & _ & _ & -> & _). exact Hagree. }
  split; [exact Hrun|].
  rewrite run_memory_app, run_app.
  change (run [AcceptClicked] ?s) with (accept s).
  rewrite accept_matrix. exact Hrun.
Qed.

(** Over the example matrix: after an input value with the slider subscribed
    and an accept, the matrix holds a pointer to a live object carrying the
    detected binding. *)
Lemma slider_pointer_leads_to_binding_witness :
  target
    (heap (run_memory
             ([AutoDetectInputButtonClicked; InputValueChanged 1 7] ++ [AcceptClicked])
             (VCMatrixProperties_new example_matrix example_doc)
             (Pointers.VCMatrixProperties_new example_heap (Some O))))
    (matrix_inputSource
       (run_memory
          ([AutoDetectInputButtonClicked; InputValueChanged 1 7] ++ [AcceptClicked])
          (VCMatrixProperties_new example_matrix example_doc)
          (Pointers.VCMatrixProperties_new example_heap (Some O))))
  = binding_target
      (inputSource
         (m_matrix
            (run ([AutoDetectInputButtonClicked; InputValueChanged 1 7]
                  ++ [AcceptClicked])
               (VCMatrixProperties_new example_matrix example_doc)))).
Proof.
  apply (proj2 (slider_pointer_leads_to_binding example_matrix example_doc
                  [AutoDetectInputButtonClicked; InputValueChanged 1 7]
                  example_heap (Some O) ltac:(reflexivity))).
Defined.
